(** * The command store of the event-source server

    A shallow embedding of [server/command.js] (registration of command
    paths, [add], [query], the query compiler [buildQuery] and [parseTime])
    and of the link envelope written by [pushQueryStreamStart] in
    [command/server.js].

    Conventions of the embedding.
    - A JavaScript object is the list of its own enumerable properties in
      the order [Object.keys] lists them.  The call [x.hasOwnProperty(k)]
      is a method call: it answers whether [k] is among them, unless [x]
      has a property of its own named hasOwnProperty, which is called
      instead and, not being a function in a request body, a query string
      or a handler record, throws.  The assignment [x[k] = v] updates the
      list ([put]), except for the key [__proto__] on an object that has no
      such property of its own: that assignment reaches the setter of the
      prototype and creates no property (what it installs as prototype is
      not followed).
      An array is the object of its indices, together with its [length]
      where the code reads it by name (a request body, the value of a
      parameter) rather than by its keys.
    - The module-level [store] is an object used as a map from paths to
      handlers: a [gmap] holds its own properties, read and written under
      the same two rules.
    - Numbers are [NaN] or doubles that hold an integer: every number the
      code computes with is a count, a position, a page size or a
      millisecond time stamp.  A sum or a difference is exact, and printed
      in decimal digits, while it is a safe integer (below [2^53] in
      absolute value); beyond that the host says what it is rounded to and
      how it prints ([round], [ToString]).  Any other double is carried
      around untouched as [VDouble].
    - Function objects are identified by a number and carry no properties
      of their own; what they compute, and the built-ins whose result is
      fixed by the host ([isNaN], [parseInt], [parseFloat], date parsing,
      string conversion of non-primitives), are fields of the class
      [Runtime].
    - A thrown exception is the left injection of [res]; promises are
      followed to the handler that runs, so a rejected promise is the error
      its [catch] handler receives. *)

From Stdlib Require Import ZArith String Ascii List Bool Lia.
From stdpp Require Import base gmap strings list pretty.

Local Open Scope Z_scope.
#[local] Set Warnings "-register-all".

(** ** Values *)

Inductive number :=
| NaN
| Int (z : Z).

(** The integers that a double holds exactly together with their
    neighbours: those strictly between [-2^53] and [2^53]. *)
Definition safe_integer (z : Z) : bool :=
  (- 2 ^ 53 <? z) && (z <? 2 ^ 53).

Inductive jsval :=
| VUndefined
| VNull
| VBool (b : bool)
| VNum (n : number)
| VDouble (literal : string)
| VStr (s : string)
| VObj (props : list (string * jsval))
| VFun (id : nat).

Definition obj := list (string * jsval).

Fixpoint lookup_prop (k : string) (o : obj) : option jsval :=
  match o with
  | [] => None
  | (k', v) :: o' => if String.eqb k k' then Some v else lookup_prop k o'
  end.

Definition has_prop (k : string) (o : obj) : bool :=
  match lookup_prop k o with Some _ => true | None => false end.

Fixpoint set_prop (k : string) (v : jsval) (o : obj) : obj :=
  match o with
  | [] => [(k, v)]
  | (k', v') :: o' =>
      if String.eqb k k' then (k, v) :: o' else (k', v') :: set_prop k v o'
  end.

(** [o[k] = v] on an object created by a literal or by [JSON.parse] *)
Definition put (k : string) (v : jsval) (o : obj) : obj :=
  if String.eqb k "__proto__" && negb (has_prop k o) then o
  else set_prop k v o.

(** [Object.assign({}, a, b)] for an [a] and a [b] without a property of
    their own named [__proto__]: the query of a request is parsed without
    one, and the overrides of the links have none. *)
Definition assign (a b : obj) : obj :=
  fold_left (fun acc kv => set_prop (fst kv) (snd kv) acc) (a ++ b) [].

Definition typeof (v : jsval) : string :=
  match v with
  | VUndefined => "undefined"
  | VNull => "object"
  | VBool _ => "boolean"
  | VNum _ => "number"
  | VDouble _ => "number"
  | VStr _ => "string"
  | VObj _ => "object"
  | VFun _ => "function"
  end.

Definition truthy (v : jsval) : bool :=
  match v with
  | VUndefined | VNull => false
  | VBool b => b
  | VNum NaN => false
  | VNum (Int z) => negb (z =? 0)
  | VDouble _ => true
  | VStr s => negb (String.eqb s EmptyString)
  | VObj _ | VFun _ => true
  end.

(** [v === s] for a string literal [s] *)
Definition is_str (v : jsval) (s : string) : bool :=
  match v with VStr s' => String.eqb s' s | _ => false end.

(** ** Exceptions *)

Inductive exn :=
| RequestError (message : string)
| TypeError (message : string)
| Error (message : string).

Definition res (A : Type) : Type := (exn + A)%type.
Definition ok {A} (a : A) : res A := inr a.
Definition throw {A} (e : exn) : res A := inl e.
Definition bind {A B} (c : res A) (k : A -> res B) : res B :=
  match c with inl e => inl e | inr a => k a end.

Notation "'do' x <- c ;; k" := (bind c (fun x => k))
  (at level 10, x name, c at level 99, k at level 200).
Notation "'check' c ;; k" := (bind c (fun _ : unit => k))
  (at level 10, c at level 99, k at level 200).

(** [if (b) throw e;] *)
Definition throw_if (b : bool) (e : exn) : res unit :=
  if b then throw e else ok tt.

(** ** Property access on arbitrary values *)

Definition index_keys (n : nat) : list string :=
  map (fun i : nat => pretty (Z.of_nat i)) (seq 0 n).

Definition char_at (s : string) (i : nat) : jsval :=
  match String.get i s with
  | Some c => VStr (String c EmptyString)
  | None => VUndefined
  end.

(** The own property [k] of a value that can have properties. *)
Definition own (v : jsval) (k : string) : option jsval :=
  match v with
  | VObj o => lookup_prop k o
  | VStr s =>
      if String.eqb k "length" then Some (VNum (Int (Z.of_nat (String.length s))))
      else
        match find (fun i : nat => String.eqb k (pretty (Z.of_nat i)))
                   (seq 0 (String.length s)) with
        | Some i => Some (char_at s i)
        | None => None
        end
  | _ => None
  end.

Definition not_an_object : exn :=
  TypeError "Cannot read property of undefined or null".

Definition not_a_function : exn :=
  TypeError "hasOwnProperty is not a function".

(** [v.hasOwnProperty(k)]: a property of [v]'s own with that name is what
    gets called.  It holds what a request body, a query string or an index
    configuration put there, and the call throws. *)
Definition hasOwnProperty (v : jsval) (k : string) : res bool :=
  match v with
  | VUndefined | VNull => throw not_an_object
  | _ =>
      match own v "hasOwnProperty" with
      | Some _ => throw not_a_function
      | None => ok (match own v k with Some _ => true | None => false end)
      end
  end.

(** [v[k]], for the keys the code reads: own properties, or names that no
    prototype answers *)
Definition get (v : jsval) (k : string) : res jsval :=
  match v with
  | VUndefined | VNull => throw not_an_object
  | _ => ok (match own v k with Some x => x | None => VUndefined end)
  end.

(** [Object.keys(v)] *)
Definition Object_keys (v : jsval) : res (list string) :=
  match v with
  | VUndefined | VNull =>
      throw (TypeError "Cannot convert undefined or null to object")
  | VObj o => ok (map fst o)
  | VStr s => ok (index_keys (String.length s))
  | _ => ok []
  end.

(** ** The host *)

Class Runtime := {
  (** the call [f(x)] of function object [f] *)
  call : nat -> jsval -> res jsval;
  isNaN : jsval -> bool;
  parseInt : jsval -> number;
  (** a number, or the literal of a double that is not an integer *)
  parseFloat : jsval -> number + string;
  (** [new Date(v).valueOf()], [NaN] for an invalid date *)
  Date_valueOf : jsval -> number;
  (** the double that an integer beyond the safe ones is rounded to *)
  round : Z -> number;
  (** string conversion of objects, functions and of the doubles that are
      not safe integers *)
  ToString : jsval -> string
}.

Section Command.
Context {rt : Runtime}.

Definition show_number (n : number) : string :=
  match n with
  | NaN => "NaN"
  | Int z => if safe_integer z then pretty z else ToString (VNum n)
  end.

Definition to_string (v : jsval) : string :=
  match v with
  | VUndefined => "undefined"
  | VNull => "null"
  | VBool true => "true"
  | VBool false => "false"
  | VNum n => show_number n
  | VStr s => s
  | _ => ToString v
  end.

(** [f(x)] where [f] is any value *)
Definition apply (f x : jsval) : res jsval :=
  match f with
  | VFun id => call id x
  | _ => throw (TypeError (to_string f +:+ " is not a function"))
  end.

(** ** The store of handlers *)

(** [store[path]]: the collection promise is determined by the path, and the
    subscription map is never read. *)
Record handler := Handler {
  indexes : jsval;
  keys : list string;
  transform : jsval
}.

(** [store.hasOwnProperty(path)], answering with the handler for [true] *)
Definition store_hasOwnProperty (store : gmap string handler) (path : string)
  : res (option handler) :=
  match store !! "hasOwnProperty" with
  | Some _ => throw not_a_function
  | None => ok (store !! path)
  end.

(** [store[path] = handler] *)
Definition store_put (path : string) (h : handler)
    (store : gmap string handler) : gmap string handler :=
  match store !! path with
  | None => if String.eqb path "__proto__" then store else <[path := h]> store
  | Some _ => <[path := h]> store
  end.

(** [keys.forEach(f)], where [f] may throw *)
Fixpoint forEach {A} (f : A -> res unit) (l : list A) : res unit :=
  match l with
  | [] => ok tt
  | x :: l' => check f x ;; forEach f l'
  end.

Definition dq : string := String (ascii_of_nat 34) EmptyString.

Definition check_index (path : string) (idx : jsval) (key : string) : res unit :=
  do item <- get idx key ;;
  do type <- get item "type" ;;
  check throw_if (truthy type &&
                  (negb (is_str type "string") && negb (is_str type "number")
                   && negb (is_str type "boolean")))
    (Error ("Invalid type specified for command handler for " +:+ path +:+ " "
            +:+ key +:+ ". Expected on of " +:+ dq +:+ "boolean" +:+ dq +:+ ", "
            +:+ dq +:+ "number" +:+ dq +:+ ", or " +:+ dq +:+ "string" +:+ dq
            +:+ ".")) ;;
  do validator <- get item "validator" ;;
  check throw_if (truthy validator && negb (String.eqb (typeof validator) "function"))
    (Error ("Invalid validator specified for command handler for " +:+ path
            +:+ " " +:+ key +:+ ". Expected a function.")) ;;
  do value <- get item "value" ;;
  throw_if (truthy value && negb (String.eqb (typeof value) "function"))
    (Error ("Invalid value specified for command handler for " +:+ path
            +:+ " " +:+ key +:+ ". Expected a function.")).

(** [exports.handle], called with the argument list [arguments].  The
    indexes created on the collection afterwards are requests to the storage
    engine that no other operation observes. *)
Definition handle (store : gmap string handler) (arguments : list jsval)
  : res (gmap string handler) :=
  let path := to_string (nth 0 arguments VUndefined) in
  let idx := nth 1 arguments VUndefined in
  let transform := nth 2 arguments VUndefined in
  do keys <- Object_keys idx ;;
  let idx := if (length arguments =? 1)%nat then VObj [] else idx in
  check throw_if (negb (String.eqb (typeof idx) "object"))
    (Error "Command handler index must be an object") ;;
  check forEach (check_index path idx) keys ;;
  check throw_if (truthy transform && negb (String.eqb (typeof transform) "function"))
    (Error "Commander handler transform must be a function") ;;
  ok (store_put path (Handler idx keys transform) store).

(** ** The storage engine

    The document store is a collaborator: it is described by what its
    operations answer.  [documents] are the documents of a collection in
    natural order and [matches] is the engine's reading of a predicate. *)

Inductive insert_outcome :=
| Inserted                       (* the returned promise is fulfilled *)
| InsertRejected (e : exn)       (* the returned promise is rejected *)
| InsertThrew (e : exn).         (* the call itself throws *)

Record engine := Engine {
  (** the reason for which the promise [db.collection(path)] is rejected *)
  collection_fault : string -> option exn;
  documents : string -> list obj;
  matches : obj -> obj -> bool;
  (** the reason for which [cursor.count()] is rejected *)
  count_fault : string -> obj -> option exn;
  (** [cursor.skip(NaN)] *)
  skip_NaN : list obj -> res (list obj);
  insertOne : string -> obj -> insert_outcome
}.

(** What an operation asks of the engine. *)
Inductive storage_call :=
| UseCollection (path : string)
| InsertOne (path : string) (item : obj).

(** ** Results *)

Inductive chunk :=
| Text (s : string)
| Item (v : jsval)
| Failure (e : exn).

(** [{ code, contentType, content }]; [content] lists what is pushed on the
    stream before it ends. *)
Record response := Response {
  code : Z;
  contentType : string;
  content : list chunk
}.

(** [new RequestError(message)] *)
Definition new_RequestError (message : string) : exn :=
  RequestError (if truthy (VStr message) then message
                else "The request is malformed").

(** ** add *)

(** The body of the callback of [store[path].keys.forEach] in [add], up to
    the value it stores under [key]. *)
Definition index_value (idx data : jsval) (key : string) : res jsval :=
  do properties <- get idx key ;;
  do present <- hasOwnProperty data key ;;
  do value <- (if present then get data key else get properties "defaultValue") ;;
  do required <- get properties "required" ;;
  check throw_if (truthy required && negb present)
    (new_RequestError ("Missing required property: " +:+ key +:+ ".")) ;;
  do type <- get properties "type" ;;
  check throw_if (truthy type && negb (is_str type (typeof value)))
    (new_RequestError ("Invalid type for property: " +:+ key +:+ ". Expected "
                       +:+ to_string type)) ;;
  do validator <- get properties "validator" ;;
  do valid <- (if truthy validator
               then do r <- apply validator value ;; ok (truthy r)
               else ok true) ;;
  check throw_if (negb valid)
    (new_RequestError ("Validation failed for property: " +:+ key +:+ ".")) ;;
  do derive <- get properties "value" ;;
  if truthy derive then apply derive value else ok value.

(** The whole [forEach]: [item] is filled key after key. *)
Fixpoint index_all (idx data : jsval) (keys : list string) (item : obj)
  : res obj :=
  match keys with
  | [] => ok item
  | key :: keys' =>
      do value <- index_value idx data key ;;
      index_all idx data keys' (put key value item)
  end.

Definition respond (code : Z) (message : string) : response :=
  Response code "text/plain" [Text message].

(** [e instanceof RequestError ? e.message : 'Internal server error'] *)
Definition failure_message (e : exn) : string :=
  match e with
  | RequestError message => message
  | _ => "Internal server error"
  end.

(** [exports.add].  The first [then] callback calls [collection.insertOne]
    and returns nothing, so the second one answers 200 as soon as the call
    has returned; [catch] only sees a rejected collection promise or an
    exception thrown by the call.  [now] is [Date.now()]. *)
Definition add (eng : engine) (store : gmap string handler) (now : Z)
    (path : string) (data : jsval) : response * list storage_call :=
  match store_hasOwnProperty store path with
  | inl e => (respond 500 (failure_message e), [])
  | inr (Some h) =>
      let built :=
        do data <- (if truthy (transform h) then apply (transform h) data
                    else ok data) ;;
        do item <- index_all (indexes h) data (keys h) [] ;;
        let item := set_prop "__timestamp" (VNum (Int now)) item in
        ok (set_prop "__data" data item) in
      match built with
      | inl e => (respond 500 (failure_message e), [])
      | inr item =>
          match collection_fault eng path with
          | Some _ =>
              (respond 500 "Internal server error", [UseCollection path])
          | None =>
              match insertOne eng path item with
              | InsertThrew _ =>
                  (respond 500 "Internal server error",
                   [UseCollection path; InsertOne path item])
              | Inserted | InsertRejected _ =>
                  (respond 200 EmptyString,
                   [UseCollection path; InsertOne path item])
              end
          end
      end
  | inr None => (respond 404 "Not found", [])
  end.

(** ** The query compiler *)

(** [/\./.test(s)] *)
Fixpoint contains_dot (s : string) : bool :=
  match s with
  | EmptyString => false
  | String c s' => Ascii.eqb c "."%char || contains_dot s'
  end.

(** [o[k]] for an object [o] *)
Definition prop (o : obj) (k : string) : jsval :=
  match lookup_prop k o with Some v => v | None => VUndefined end.

Definition double_value (r : number + string) : jsval :=
  match r with inl n => VNum n | inr literal => VDouble literal end.

Definition parseTime (time : jsval) : jsval :=
  if negb (isNaN time) then VNum (parseInt time)
  else
    match Date_valueOf time with
    | NaN => VNull
    | t => VNum t
    end.

(** The callback of [Object.keys(filter).forEach] in [buildQuery]; [item] is
    [store[path]], read by [query] only after [store.hasOwnProperty(path)]
    has answered [true].  The keys are those of the filter, which
    [analyzeQueryParameters] fills by assignment, so that [__proto__] is not
    among them. *)
Definition filter_key (item : option handler) (filter result : obj)
    (key : string) : res obj :=
  do idx <- match item with
            | Some h => ok (indexes h)
            | None => throw not_an_object
            end ;;
  do declared <- hasOwnProperty idx key ;;
  if declared then
    do rule <- get idx key ;;
    do type <- get rule "type" ;;
    let value := prop filter key in
    if is_str type "boolean" then
      let value := if is_str value "true" then VBool true else value in
      let value := if is_str value "false" then VBool false else value in
      ok (set_prop key (VBool (truthy value)) result)
    else if is_str type "number" then
      if negb (isNaN value)
      then ok (set_prop key (if contains_dot (to_string value)
                             then double_value (parseFloat value)
                             else VNum (parseInt value)) result)
      else ok result
    else ok (set_prop key value result)
  else ok result.

Fixpoint filter_keys (item : option handler) (filter : obj)
    (keys : list string) (result : obj) : res obj :=
  match keys with
  | [] => ok result
  | key :: keys' =>
      do result <- filter_key item filter result key ;;
      filter_keys item filter keys' result
  end.

Definition defined (v : jsval) : bool :=
  negb (String.eqb (typeof v) "undefined").

Definition buildQuery (store : gmap string handler) (path : string)
    (filter options : obj) : res obj :=
  let endTime := VUndefined in
  let item := store !! path in
  let startTime := VUndefined in
  do result <- filter_keys item filter (map fst filter) [] ;;
  do given <- hasOwnProperty (VObj options) "startTime" ;;
  let startTime :=
    if given then parseTime (prop options "startTime") else startTime in
  do given <- hasOwnProperty (VObj options) "endTime" ;;
  let startTime :=
    if given then parseTime (prop options "endTime") else startTime in
  if defined startTime && defined endTime then
    ok (set_prop "__timestamp"
          (VObj [("$gte", startTime); ("$lte", endTime)]) result)
  else if defined startTime then
    ok (set_prop "__timestamp" (VObj [("$gte", startTime)]) result)
  else if defined endTime then
    ok (set_prop "__timestamp" (VObj [("$lte", endTime)]) result)
  else ok result.

(** ** query *)

Definition num_lt (a b : number) : bool :=
  match a, b with Int x, Int y => x <? y | _, _ => false end.

(** An integer result as the double it is stored in: itself when it is a
    safe integer. *)
Definition rounded (z : Z) : number :=
  if safe_integer z then Int z else round z.

Definition num_add (a b : number) : number :=
  match a, b with Int x, Int y => rounded (x + y) | _, _ => NaN end.

Definition num_sub (a b : number) : number :=
  match a, b with Int x, Int y => rounded (x - y) | _, _ => NaN end.

(** [{ code, contentType, content, limit, position, recordsCount }];
    [position] is [null] until it is computed. *)
Record query_result := QueryResult {
  reply : response;
  limit : Z;
  position : option number;
  recordsCount : Z
}.

(** [cursor.skip(n)] on the documents a cursor still has to deliver *)
Definition cursor_skip (eng : engine) (n : number) (cursor : list obj)
  : res (list obj) :=
  match n with
  | Int z => ok (skipn (Z.to_nat z) cursor)
  | NaN => skip_NaN eng cursor
  end.

(** The [transform] of [cursor.stream] in [query]; the file is in strict
    mode, where setting a property on a primitive throws. *)
Definition emit (tsProperty : jsval) (item : obj) : chunk :=
  let data := prop item "__data" in
  if truthy tsProperty then
    match data with
    | VObj o =>
        Item (VObj (put (to_string tsProperty) (prop item "__timestamp") o))
    | VFun _ => Item data
    | _ => Failure (TypeError "Cannot create property")
    end
  else Item data.

(** The statements of [query] under [//determine the skip value]: the
    value of [start]. *)
Definition skip_value (options : obj) (count : Z) (limit : number)
  : res number :=
  let start := num_sub (Int count) limit in
  do given <- hasOwnProperty (VObj options) "position" ;;
  ok (if given && negb (isNaN (prop options "position"))
      then parseInt (prop options "position") else start).

(** The statements of [query] under [//determine whether to return the
    timestamp]: the value of [tsProperty]. *)
Definition timestamp_option (options : obj) : res jsval :=
  do given <- hasOwnProperty (VObj options) "timestamp" ;;
  ok (if given then
        if truthy (prop options "timestamp") then prop options "timestamp"
        else VStr "timestamp"
      else VUndefined).

Section Query.
(** [globalConfig.defaultLimit] *)
Variable defaultLimit : Z.

(** [respond(code, message)] of [query] on the result built so far *)
Definition respond_query (result : query_result) (code : Z)
    (message : option string) : query_result :=
  QueryResult
    (Response code (contentType (reply result))
       (content (reply result)
        ++ match message with Some m => [Text m] | None => [] end))
    (limit result) (position result) (recordsCount result).

Definition query (eng : engine) (store : gmap string handler)
    (path : string) (filter options : obj) : query_result :=
  let result := QueryResult (Response 0 "text/plain" []) defaultLimit None 0 in
  let failed r := respond_query r 500 (Some "Internal server error") in
  match store_hasOwnProperty store path with
  | inl _ => failed result
  | inr None => respond_query result 404 (Some "Not found")
  | inr (Some _) =>
      match collection_fault eng path with
      | Some _ => failed result
      | None =>
      match buildQuery store path filter options with
      | inl _ => failed result
      | inr query =>
      let cursor := List.filter (matches eng query) (documents eng path) in
      match count_fault eng path query with
      | Some _ => failed result
      | None =>
      let count := Z.of_nat (length cursor) in
      let result :=
        QueryResult (reply result) (limit result) (position result) count in
      match skip_value options count (Int (limit result)) with
      | inl _ => failed result
      | inr start =>
      let result :=
        QueryResult (reply result) (limit result) (Some start)
          (recordsCount result) in
      if num_lt start (Int 1) || num_lt (Int count) start then
        respond_query
          (QueryResult
             (Response (code (reply result)) "application/json"
                (content (reply result)))
             (limit result) (position result) (recordsCount result))
          200 None
      else
        match (do tsProperty <- timestamp_option options ;;
               do cursor <- cursor_skip eng (num_sub start (Int 1)) cursor ;;
               ok (map (emit tsProperty) cursor)) with
        | inl _ => failed result
        | inr items =>
            QueryResult (Response 200 "application/json" items)
              (limit result) (position result) (recordsCount result)
        end
      end
      end
      end
      end
  end.

End Query.

(** ** The link envelope of a query response ([command/server.js]) *)

Definition quoted (s : string) : string := dq +:+ s +:+ dq.

(** The loop of [buildQueryString] over [Object.keys(data)], from [index]. *)
Fixpoint query_pairs (data : obj) (keys : list string) (index : nat)
    (result : string) : string :=
  match keys with
  | [] => result
  | key :: keys' =>
      let result := if (0 <? index)%nat then result +:+ "&" else result in
      query_pairs data keys' (S index)
        (result +:+ key +:+ "=" +:+ to_string (prop data key))
  end.

Definition buildQueryString (query config : obj) : string :=
  let data := assign query config in
  query_pairs data (map fst data) 0 "?".

(** [result.position] as an operand of [+], [-], [<] and [>], and as a
    value: [null] counts as 0 and prints as null. *)
Definition position_number (p : option number) : number :=
  match p with Some n => n | None => Int 0 end.

Definition position_value (p : option number) : jsval :=
  match p with Some n => VNum n | None => VNull end.

(** [pushQueryStreamStart]: the chunks pushed on [context], in order. *)
Definition pushQueryStreamStart (result : query_result) (serviceUrl : string)
    (query : obj) : list string :=
  let url := serviceUrl +:+ "/" in
  let pos := position_number (position result) in
  let lim := Int (limit result) in
  [ "{";
    quoted "links" +:+ ":{";
    quoted "latest" +:+ ":{";
    quoted "href" +:+ ":" +:+ dq +:+ serviceUrl +:+ dq +:+ ",";
    quoted "method" +:+ ":" +:+ quoted "GET" +:+ ",";
    quoted "rel" +:+ ":" +:+ quoted "latest";
    "}," ]
  ++ (if num_lt (num_add pos lim) (Int (recordsCount result)) then
        let o := [("~position", VNum (num_add pos lim))] in
        [ quoted "next" +:+ ":{";
          quoted "href" +:+ ":" +:+ dq +:+ (url +:+ buildQueryString query o)
            +:+ dq +:+ ",";
          quoted "method" +:+ ":" +:+ quoted "GET" +:+ ",";
          quoted "rel" +:+ ":" +:+ quoted "next";
          "}," ]
      else [])
  ++ (if num_lt (Int 1) pos then
        let o := [("~position", VNum (num_sub pos lim))] in
        let o :=
          if num_lt (num_sub pos lim) (Int 1)
          then set_prop "~limit" (VNum (num_sub pos (Int 1)))
                 (set_prop "~position" (VNum (Int 1)) o)
          else o in
        [ quoted "prev" +:+ ":{";
          quoted "href" +:+ ":" +:+ dq +:+ (url +:+ buildQueryString query o)
            +:+ dq +:+ ",";
          quoted "method" +:+ ":" +:+ quoted "GET" +:+ ",";
          quoted "rel" +:+ ":" +:+ quoted "prev";
          "}," ]
      else [])
  ++ [ quoted "self" +:+ ":{";
       quoted "href" +:+ ":" +:+ dq
         +:+ (url +:+ buildQueryString query
                        [("~position", position_value (position result))])
         +:+ dq +:+ ",";
       quoted "method" +:+ ":" +:+ quoted "GET" +:+ ",";
       quoted "rel" +:+ ":" +:+ quoted "self";
       "}";
       "},";
       quoted "metadata" +:+ ":{";
       quoted "page_size" +:+ ":" +:+ show_number (Int (limit result)) +:+ ",";
       quoted "position" +:+ ":" +:+ to_string (position_value (position result))
         +:+ ",";
       quoted "total_records" +:+ ":"
         +:+ show_number (Int (recordsCount result)) +:+ EmptyString;
       "},";
       quoted "values" +:+ ":[" ].

End Command.

(** ** Registration histories *)

(** The store after the calls [handle(...)] of a start-up sequence; a call
    that throws registers nothing. *)
Fixpoint register_all `{Runtime} (store : gmap string handler)
    (calls : list (list jsval)) : gmap string handler :=
  match calls with
  | [] => store
  | arguments :: calls' =>
      register_all
        (match handle store arguments with inr store' => store' | inl _ => store end)
        calls'
  end.

(** The path a call of [handle] registers. *)
Definition path_of `{Runtime} (arguments : list jsval) : string :=
  to_string (nth 0 arguments VUndefined).

(** ** A host and the handler of the repository

    [example_host] is the host of the examples below.  It reads numbers and
    strings of decimal digits as numbers; every other string is neither a
    number nor a date for it, which is what a JavaScript engine answers on
    the strings the examples use.  The numbers of the examples are safe
    integers, so that none of them is rounded or printed by the host.
    Function 0 is the validator of the handler for [v1/logs]. *)

Fixpoint digits_value (s : string) (acc : Z) : option Z :=
  match s with
  | EmptyString => Some acc
  | String c s' =>
      let n := Z.of_nat (nat_of_ascii c) - 48 in
      if (0 <=? n) && (n <=? 9) then digits_value s' (10 * acc + n) else None
  end.

(** The double nearest to an integer beyond the safe ones and below the
    overflow threshold: 53 leading bits, ties to the even one. *)
Definition nearest_double (z : Z) : number :=
  let a := Z.abs z in
  let e := Z.log2 a - 52 in
  let q := Z.shiftr a e in
  let r := a - Z.shiftl q e in
  let half := Z.shiftl 1 (e - 1) in
  let q := if (half <? r) || ((r =? half) && Z.odd q) then q + 1 else q in
  Int (Z.sgn z * Z.shiftl q e).

Definition read_number (v : jsval) : number :=
  match v with
  | VNum n => n
  | VStr (String c s) =>
      match digits_value (String c s) 0 with Some z => Int z | None => NaN end
  | _ => NaN
  end.

#[export] Instance example_host : Runtime := {|
  call id v :=
    match id with
    | O => ok (VBool (is_str v "info" || is_str v "warn" || is_str v "error"))
    | _ => throw (Error "not a function of the examples")
    end;
  isNaN v :=
    match v with
    | VNull | VBool _ | VDouble _ | VStr EmptyString => false
    | _ => match read_number v with NaN => true | Int _ => false end
    end;
  parseInt := read_number;
  parseFloat v := inl (read_number v);
  Date_valueOf v := match v with VNum n => n | _ => NaN end;
  round := nearest_double;
  ToString v :=
    match v with
    | VDouble literal => literal
    | VNum (Int z) => pretty z
    | VFun _ => "function () {}"
    | _ => "[object Object]"
    end
|}.

(** The index configuration passed to [handle] for [v1/logs]. *)
Definition logs_indexes : jsval :=
  VObj [("type", VObj [("required", VBool true);
                       ("type", VStr "string");
                       ("validator", VFun 0)])].

Definition logs_store : gmap string handler :=
  register_all ∅ [[VStr "v1/logs"; logs_indexes]].

(** The same store after a registration of the path hasOwnProperty. *)
Definition shadowed_store : gmap string handler :=
  register_all logs_store [[VStr "hasOwnProperty"; VObj []]].

(** A second handler with three declared fields, two of them required. *)
Definition audit_indexes : jsval :=
  VObj [("source", VObj []);
        ("user", VObj [("required", VBool true)]);
        ("action", VObj [("required", VBool true)])].

Definition audit_store : gmap string handler :=
  register_all ∅ [[VStr "v1/audit"; audit_indexes]].

(** The record [add] stores for a log entry of the given type. *)
Definition logged (type : string) (time : Z) : obj :=
  [("type", VStr type); ("__timestamp", VNum (Int time));
   ("__data", VObj [("type", VStr type)])].

(** An engine with the given documents in every collection that accepts
    every write and matches every document. *)
Definition healthy_engine (docs : list obj) : engine :=
  Engine (fun _ => None) (fun _ => docs) (fun _ _ => true) (fun _ _ => None)
    (fun _ => throw (Error "skip requires an integer")) (fun _ _ => Inserted).

(** The same engine, except that every write fails: the promise returned by
    [insertOne] is rejected. *)
Definition rejecting_engine (docs : list obj) : engine :=
  Engine (fun _ => None) (fun _ => docs) (fun _ _ => true) (fun _ _ => None)
    (fun _ => throw (Error "skip requires an integer"))
    (fun _ _ => InsertRejected (Error "write failed")).

(** ** Vocabulary of the statements *)

(** An object none of whose properties is itself an object. *)
Definition flat (o : obj) : Prop :=
  forall k c, lookup_prop k o <> Some (VObj c).









(** * The rest of the two files *)

(** ** query2, the variant of [query] that honours the [limit] option *)

Module Query2.
Section Query2.
Context {rt : Runtime}.
(** [globalConfig.defaultLimit] and [globalConfig.maxLimit] *)
Variables defaultLimit maxLimit : Z.
(** [cursor.limit(n)] for an [n] that is not a positive integer *)
Variable limit_other : number -> list obj -> res (list obj).

(** The result object of [query2]; its [limit] is whatever [parseInt]
    made of the option. *)
Record result := Result {
  reply : response;
  limit : number;
  position : option number;
  recordsCount : Z
}.

(** [respond(code, message)] of [query2]: the content is a fresh stream. *)
Definition respond (r : result) (code : Z) (message : option string) : result :=
  Result
    (Response code (contentType (reply r))
       match message with Some m => [Text m] | None => [] end)
    (limit r) (position r) (recordsCount r).

(** The statements of [query2] under [//limit the number of results]: the
    value of [result.limit]. *)
Definition page_limit (options : obj) : res number :=
  let limit := Int defaultLimit in
  do given <- hasOwnProperty (VObj options) "limit" ;;
  let limit :=
    if given && negb (isNaN (prop options "limit"))
    then parseInt (prop options "limit") else limit in
  ok (if num_lt (Int maxLimit) limit then Int maxLimit else limit).

(** [cursor.limit(n)]: a positive [n] caps what the cursor delivers. *)
Definition cursor_limit (n : number) (cursor : list obj) : res (list obj) :=
  match n with
  | Int z =>
      if 0 <? z then ok (firstn (Z.to_nat z) cursor) else limit_other n cursor
  | NaN => limit_other n cursor
  end.

Definition query2 (eng : engine) (store : gmap string handler)
    (path : string) (filter options : obj) : result :=
  let result := Result (Response 0 "text/plain" []) (Int defaultLimit) None 0 in
  let failed r := respond r 500 (Some "Internal server error") in
  match store_hasOwnProperty store path with
  | inl _ => failed result
  | inr None => respond result 404 (Some "Not found")
  | inr (Some _) =>
      match collection_fault eng path with
      | Some _ => failed result
      | None =>
      match buildQuery store path filter options with
      | inl _ => failed result
      | inr query =>
      let cursor := List.filter (matches eng query) (documents eng path) in
      match count_fault eng path query with
      | Some _ => failed result
      | None =>
      let count := Z.of_nat (length cursor) in
      let result := Result (reply result) (limit result) (position result) count in
      match page_limit options with
      | inl _ => failed result
      | inr limit =>
      let result :=
        Result (reply result) limit (position result) (recordsCount result) in
      match skip_value options count (limit) with
      | inl _ => failed result
      | inr start =>
      let result :=
        Result (reply result) limit (Some start) (recordsCount result) in
      if num_lt start (Int 1) || num_lt (Int count) start then
        respond
          (Result
             (Response (code (reply result)) "application/json"
                (content (reply result)))
             limit (position result) (recordsCount result))
          200 None
      else
        match (do tsProperty <- timestamp_option options ;;
               do skipped <- cursor_skip eng (num_sub start (Int 1)) cursor ;;
               do cursor <- cursor_limit limit skipped ;;
               ok (map (emit tsProperty) cursor)) with
        | inl _ => failed result
        | inr items =>
            Result (Response 200 "application/json" items)
              limit (position result) (recordsCount result)
        end
      end
      end
      end
      end
      end
  end.

End Query2.
End Query2.

(** ** Routing and framing ([command/server.js]) *)

Module Server.

(** [s.split(c)] for a separator of one character *)
Fixpoint split_on (c : ascii) (s : string) : list string :=
  match s with
  | EmptyString => [EmptyString]
  | String a s' =>
      if Ascii.eqb a c then EmptyString :: split_on c s'
      else
        match split_on c s' with
        | first :: rest => String a first :: rest
        | [] => [String a EmptyString]
        end
  end.

(** [s.replace(/^\//, '')] *)
Definition strip_leading_slash (s : string) : string :=
  match s with
  | String a s' => if Ascii.eqb a "/" then s' else s
  | EmptyString => s
  end.

(** [s.replace(/\/$/, '')] *)
Fixpoint strip_trailing_slash (s : string) : string :=
  match s with
  | EmptyString => EmptyString
  | String a s' =>
      match s' with
      | EmptyString => if Ascii.eqb a "/" then EmptyString else s
      | _ => String a (strip_trailing_slash s')
      end
  end.

(** [{ action, path }] *)
Record route := Route {
  action : string;
  path : string
}.

Definition analyzeUrl (url : string) : route :=
  let urlPathArray :=
    split_on "/"
      (strip_trailing_slash
         (strip_leading_slash (nth 0 (split_on "?" url) EmptyString))) in
  Route (nth 0 urlPathArray EmptyString)
    (String.concat "/" (skipn 1 urlPathArray)).

(** [/^~/.test(key)] and [key.substr(1)] *)
Definition is_option (key : string) : bool :=
  match key with
  | String a _ => Ascii.eqb a "~"
  | EmptyString => false
  end.

Definition substr1 (key : string) : string :=
  match key with
  | String _ s => s
  | EmptyString => EmptyString
  end.

(** The callback of [Object.keys(query).forEach] in
    [analyzeQueryParameters]; the result is the pair of [result.filter] and
    [result.options]. *)
Definition analyze_key (query : obj) (result : obj * obj) (key : string)
  : obj * obj :=
  if is_option key
  then (fst result, put (substr1 key) (prop query key) (snd result))
  else (put key (prop query key) (fst result), snd result).

Definition analyzeQueryParameters (query : obj) : obj * obj :=
  fold_left (analyze_key query) (map fst query) ([], []).

Definition pushQueryStreamEnd : list string := ["]"; "}"].

Section Framing.
Context {rt : Runtime}.
(** [JSON.stringify] *)
Variable stringify : jsval -> string.

(** [host] in the handler of [app.get]: the service URL of the links *)
Definition serviceUrl (protocol hostname url : string) : string :=
  protocol +:+ "://" +:+ hostname +:+ "/" +:+ path (analyzeUrl url).

(** The two callbacks of [through2.obj] in the handler of [app.get], with the
    value of [first] they find: what they push. *)
Definition on_chunk (result : query_result) (host : string) (query : obj)
    (first : bool) (chunk : jsval) : list string :=
  (if first then pushQueryStreamStart result host query else [","])
  ++ [stringify chunk].

Definition on_end (result : query_result) (host : string) (query : obj)
    (first : bool) : list string :=
  (if first then pushQueryStreamStart result host query else [])
  ++ pushQueryStreamEnd.

(** The stream piped to the response for the values of a 200 result. *)
Fixpoint pipe (result : query_result) (host : string) (query : obj)
    (first : bool) (chunks : list jsval) : list string :=
  match chunks with
  | [] => on_end result host query first
  | chunk :: chunks' =>
      on_chunk result host query first chunk
      ++ pipe result host query false chunks'
  end.

End Framing.
End Server.

(** ** Vocabulary of the further statements *)

(** A declared rule as [handle] accepts it. *)
Definition rule_accepted (item : jsval) : Prop :=
  exists type validator value,
    get item "type" = ok type
    /\ get item "validator" = ok validator
    /\ get item "value" = ok value
    /\ (truthy type = false
        \/ type = VStr "string" \/ type = VStr "number" \/ type = VStr "boolean")
    /\ (truthy validator = false \/ exists id, validator = VFun id)
    /\ (truthy value = false \/ exists id, value = VFun id).

(** The step of [Object.assign]: one property copied onto the target. *)
Definition assign_step (acc : obj) (kv : string * jsval) : obj :=
  set_prop (fst kv) (snd kv) acc.

(** A handler with a boolean, a numeric and an untyped field, one with a
    default value, and the documents and engine of the paging examples. *)
Definition sample_indexes : jsval :=
  VObj [("active", VObj [("type", VStr "boolean")]);
        ("count", VObj [("type", VStr "number")]);
        ("note", VObj [("defaultValue", VStr "none")])].


Definition three_logs : list obj :=
  [logged "info" 1000; logged "warn" 2000; logged "error" 3000].

Definition no_other_limit (n : number) (cursor : list obj) : res (list obj) :=
  throw (Error "limit requires an integer").

(** An item of a stream that is the payload of a document as it is. *)
Definition bare (item : obj) : chunk := Item (prop item "__data").

(** [xs] with [sep] between any two neighbours. *)
Fixpoint intersperse (sep : string) (xs : list string) : list string :=
  match xs with
  | [] => []
  | [x] => [x]
  | x :: xs' => x :: sep :: intersperse sep xs'
  end.

(** No character of [s] is [c]. *)
Fixpoint lacks (c : ascii) (s : string) : bool :=
  match s with
  | EmptyString => true
  | String a s' => negb (Ascii.eqb a c) && lacks c s'
  end.

(** The last character of [s] is not a slash. *)
Fixpoint open_ended (s : string) : bool :=
  match s with
  | EmptyString => true
  | String a EmptyString => negb (Ascii.eqb a "/")
  | String _ s' => open_ended s'
  end.

(** * The scenarios of the specification *)

Example logs_store_registered :
  logs_store !! "v1/logs" = Some (Handler logs_indexes ["type"] VUndefined).
Proof. vm_compute. reflexivity. Qed.

Example add_info :
  add (healthy_engine []) logs_store 1000 "v1/logs" (VObj [("type", VStr "info")])
  = (respond 200 EmptyString,
     [UseCollection "v1/logs";
      InsertOne "v1/logs"
        [("type", VStr "info"); ("__timestamp", VNum (Int 1000));
         ("__data", VObj [("type", VStr "info")])]]).
Proof. vm_compute. reflexivity. Qed.

Example add_debug :
  add (healthy_engine []) logs_store 1000 "v1/logs" (VObj [("type", VStr "debug")])
  = (respond 500 "Validation failed for property: type.", []).
Proof. vm_compute. reflexivity. Qed.

Example add_empty :
  add (healthy_engine []) logs_store 1000 "v1/logs" (VObj [])
  = (respond 500 "Missing required property: type.", []).
Proof. vm_compute. reflexivity. Qed.

(** 25 records, page size 10 and no position: the window starts at position
    15, and [query], which never limits the cursor, streams the 11 records
    from there. *)
Example query_tail_window :
  let result :=
    query 10 (healthy_engine (repeat (logged "info" 1000) 25)) logs_store
      "v1/logs" [] [] in
  position result = Some (Int 15)
  /\ recordsCount result = 25
  /\ code (reply result) = 200
  /\ length (content (reply result)) = 11%nat.
Proof. vm_compute. repeat split. Qed.

(** A position above the count: an empty success that reports both. *)
Example query_beyond_the_end :
  query 10 (healthy_engine [logged "info" 1000; logged "warn" 2000]) logs_store
    "v1/logs" [] [("position", VStr "5")]
  = QueryResult (Response 200 "application/json" []) 10 (Some (Int 5)) 2.
Proof. vm_compute. reflexivity. Qed.

(** * Properties *)

Section Properties.
Context {rt : Runtime}.

(** ** Registration *)

Lemma bind_ok {A B} (c : res A) (k : A -> res B) (b : B) :
  bind c k = inr b -> exists a, c = inr a /\ k a = inr b.
Proof. destruct c as [e|a]; simpl; [discriminate | eauto]. Qed.

(** ** Strings, objects and numbers *)

Lemma append_cons a (s t : string) : String a s +:+ t = String a (s +:+ t).
Proof. reflexivity. Qed.

Lemma append_assoc (s t u : string) : (s +:+ t) +:+ u = s +:+ t +:+ u.
Proof.
  induction s as [|a s IH]; [done|]. rewrite !append_cons. by f_equal.
Qed.

Lemma append_empty (s : string) : s +:+ EmptyString = s.
Proof. induction s as [|a s IH]; [done|]. rewrite append_cons. by f_equal. Qed.

Lemma bind_throw {A B} (c : res A) (k : A -> res B) (e : exn) :
  bind c k = inl e -> c = inl e \/ exists a, c = inr a /\ k a = inl e.
Proof. destruct c as [e'|a]; simpl; [intros [= ->]; by left | eauto]. Qed.

Lemma throw_if_ok b e : throw_if b e = ok tt -> b = false.
Proof. by destruct b. Qed.

Lemma lookup_set_prop_eq k v o : lookup_prop k (set_prop k v o) = Some v.
Proof.
  induction o as [|[k' v'] o IH]; simpl.
  - by rewrite String.eqb_refl.
  - destruct (String.eqb k k') eqn:E; simpl; rewrite ?String.eqb_refl, ?E; done.
Qed.

Lemma lookup_set_prop_ne k k' v o :
  k <> k' -> lookup_prop k (set_prop k' v o) = lookup_prop k o.
Proof.
  intros Hne. apply String.eqb_neq in Hne.
  induction o as [|[k0 v0] o IH]; simpl.
  - by rewrite Hne.
  - destruct (String.eqb k' k0) eqn:E; simpl.
    + apply String.eqb_eq in E. subst k0. by rewrite Hne.
    + by rewrite IH.
Qed.

Lemma lookup_prop_In k v (o : obj) :
  lookup_prop k o = Some v -> In k (map fst o).
Proof.
  induction o as [|[k' v'] o IH]; simpl; [done|].
  destruct (String.eqb k k') eqn:E; [|by right; apply IH].
  apply String.eqb_eq in E. by left.
Qed.

Lemma lookup_prop_absent k (o : obj) :
  ~ In k (map fst o) -> lookup_prop k o = None.
Proof.
  induction o as [|[k' v'] o IH]; simpl; [done|]. intros Hk.
  destruct (String.eqb_spec k k') as [->|Hne]; [tauto|]. apply IH. tauto.
Qed.

Lemma lookup_prop_keys k (o : obj) :
  lookup_prop k o
  = if existsb (String.eqb k) (map fst o) then Some (prop o k) else None.
Proof.
  unfold prop. induction o as [|[k' v'] o IH]; simpl; [done|].
  destruct (String.eqb k k'); simpl; [done|].
  rewrite IH. by destruct (existsb _ _).
Qed.

Lemma map_fst_set_prop k v (o : obj) :
  map fst (set_prop k v o)
  = if existsb (String.eqb k) (map fst o) then map fst o else map fst o ++ [k].
Proof.
  induction o as [|[k' v'] o IH]; simpl; [done|].
  destruct (String.eqb k k') eqn:E; simpl.
  - apply String.eqb_eq in E. by subst.
  - rewrite IH. by destruct (existsb _ _).
Qed.

Lemma set_prop_NoDup k v (o : obj) :
  NoDup (map fst o) -> NoDup (map fst (set_prop k v o)).
Proof.
  intros Ho. rewrite map_fst_set_prop.
  destruct (existsb (String.eqb k) (map fst o)) eqn:E; [done|].
  apply NoDup_app. split; [done|]. split; [|apply NoDup_singleton].
  intros x Hx Hk. apply list_elem_of_singleton in Hk as ->.
  assert (existsb (String.eqb k) (map fst o) = true); [|congruence].
  apply existsb_exists. exists k.
  split; [by apply list_elem_of_In|apply String.eqb_refl].
Qed.

Lemma fold_assign_NoDup l : forall acc,
  NoDup (map fst acc) -> NoDup (map fst (fold_left assign_step l acc)).
Proof.
  induction l as [|kv l IH]; intros acc Hacc; simpl; [done|].
  apply IH. by apply set_prop_NoDup.
Qed.

Lemma fold_assign_lookup k (l : obj) : forall acc,
  NoDup (map fst l) ->
  lookup_prop k (fold_left assign_step l acc)
  = match lookup_prop k l with Some v => Some v | None => lookup_prop k acc end.
Proof.
  induction l as [|[k1 v1] l IH]; intros acc Hl; simpl; [done|].
  apply NoDup_cons in Hl as [Hk1 Hl']. rewrite (IH _ Hl').
  unfold assign_step. simpl.
  destruct (String.eqb_spec k k1) as [->|Hne].
  - rewrite lookup_prop_absent, lookup_set_prop_eq; [done|].
    by rewrite <- list_elem_of_In.
  - by rewrite lookup_set_prop_ne.
Qed.

Lemma lookup_put_ne k k' v o :
  k <> k' -> lookup_prop k (put k' v o) = lookup_prop k o.
Proof.
  intros Hne. unfold put.
  destruct (String.eqb k' "__proto__" && negb (has_prop k' o)); [done|].
  by apply lookup_set_prop_ne.
Qed.

Lemma lookup_put_eq k v o :
  k <> "__proto__" -> lookup_prop k (put k v o) = Some v.
Proof.
  intros Hne. unfold put. apply String.eqb_neq in Hne. rewrite Hne. simpl.
  apply lookup_set_prop_eq.
Qed.

Lemma put_proto_ignored v o :
  lookup_prop "__proto__" o = None -> put "__proto__" v o = o.
Proof. intros Ho. unfold put, has_prop. by rewrite Ho. Qed.

Lemma lookup_put_proto k v o :
  lookup_prop "__proto__" o = None ->
  lookup_prop "__proto__" (put k v o) = None.
Proof.
  intros Ho. destruct (string_dec k "__proto__") as [->|Hne].
  - by rewrite put_proto_ignored.
  - by rewrite lookup_put_ne.
Qed.

Lemma rounded_safe z : - 2 ^ 53 < z < 2 ^ 53 -> rounded z = Int z.
Proof.
  intros Hz. unfold rounded, safe_integer.
  replace (- 2 ^ 53 <? z) with true by (symmetry; apply Z.ltb_lt; lia).
  by replace (z <? 2 ^ 53) with true by (symmetry; apply Z.ltb_lt; lia).
Qed.


(** ** Method calls and assignments on objects *)

Lemma hasOwnProperty_plain o k :
  lookup_prop "hasOwnProperty" o = None ->
  hasOwnProperty (VObj o) k = ok (has_prop k o).
Proof. intros Ho. unfold hasOwnProperty, has_prop. simpl. by rewrite Ho. Qed.

Lemma hasOwnProperty_shadowed o k v :
  lookup_prop "hasOwnProperty" o = Some v ->
  hasOwnProperty (VObj o) k = throw not_a_function.
Proof. intros Ho. unfold hasOwnProperty. simpl. by rewrite Ho. Qed.

Lemma hasOwnProperty_returns o k b :
  hasOwnProperty (VObj o) k = ok b ->
  lookup_prop "hasOwnProperty" o = None /\ b = has_prop k o.
Proof.
  unfold hasOwnProperty, has_prop. simpl.
  destruct (lookup_prop "hasOwnProperty" o); [done|].
  intros [= <-]. done.
Qed.

Lemma store_put_other path h store p :
  p <> path -> store_put path h store !! p = store !! p.
Proof.
  intros Hp. unfold store_put.
  destruct (store !! path); [by apply lookup_insert_ne|].
  destruct (String.eqb path "__proto__"); [done|by apply lookup_insert_ne].
Qed.

Lemma store_put_eq path h store :
  path <> "__proto__" -> store_put path h store !! path = Some h.
Proof.
  intros Hp. unfold store_put. apply String.eqb_neq in Hp. rewrite Hp.
  destruct (store !! path); apply lookup_insert_eq.
Qed.

Lemma store_hasOwnProperty_plain store path :
  store !! "hasOwnProperty" = None ->
  store_hasOwnProperty store path = ok (store !! path).
Proof. intros Hs. unfold store_hasOwnProperty. by rewrite Hs. Qed.

Lemma store_hasOwnProperty_returns store path r :
  store_hasOwnProperty store path = ok r ->
  store !! "hasOwnProperty" = None /\ store !! path = r.
Proof.
  unfold store_hasOwnProperty. destruct (store !! "hasOwnProperty"); [done|].
  intros [= <-]. done.
Qed.

Lemma handle_registers store arguments store' :
  handle store arguments = inr store' ->
  exists h, store' = store_put (path_of arguments) h store.
Proof.
  unfold handle. intros Hh.
  repeat (apply bind_ok in Hh; destruct Hh as [? [_ Hh]]).
  injection Hh as <-. eauto.
Qed.

Lemma register_all_other calls : forall store path,
  (forall arguments, In arguments calls -> path_of arguments <> path) ->
  register_all store calls !! path = store !! path.
Proof.
  induction calls as [|arguments calls IH]; intros store path Hother; [done|].
  simpl. rewrite IH by (intros; apply Hother; by right).
  destruct (handle store arguments) as [e|store'] eqn:Hh; [done|].
  apply handle_registers in Hh as [h ->].
  apply store_put_other. intros Hp. by apply (Hother arguments); [left|].
Qed.

(** X29. A path that no call of [handle] has registered (it is not in the
    store the calls start from, and none of them names it), in a store
    where the path hasOwnProperty is not registered either, before or by
    the calls: [add] answers 404 with the body Not found, and asks nothing
    of the storage engine (neither the collection nor an insert). *)
Theorem add_unregistered_not_found eng store calls now path data :
  store !! "hasOwnProperty" = None ->
  (forall arguments, In arguments calls ->
     path_of arguments <> "hasOwnProperty") ->
  store !! path = None ->
  (forall arguments, In arguments calls -> path_of arguments <> path) ->
  add eng (register_all store calls) now path data
  = (Response 404 "text/plain" [Text "Not found"], []).
Proof.
  intros Hplain Hcalls Hnone Hother. unfold add.
  rewrite store_hasOwnProperty_plain
    by by rewrite (register_all_other calls store _ Hcalls).
  by rewrite (register_all_other calls store path Hother), Hnone.
Qed.

(** C10. [handle] called with the path alone throws a [TypeError], whatever
    the path and the store: [Object.keys(indexes)] runs on [undefined]
    before the default [{}] is assigned, and nothing is registered. *)
Theorem handle_single_argument_throws store path :
  handle store [path]
  = throw (TypeError "Cannot convert undefined or null to object").
Proof. reflexivity. Qed.

(** ** Validation in [add] *)

Lemma index_all_first_failure idx data pre key post e : forall item,
  Forall (fun k => exists v, index_value idx data k = ok v) pre ->
  index_value idx data key = throw e ->
  index_all idx data (pre ++ key :: post) item = throw e.
Proof.
  induction pre as [|k pre IH]; intros item Hpre Hkey; simpl.
  - by rewrite Hkey.
  - inversion Hpre as [|? ? [v Hv] Hpre']; subst.
    rewrite Hv. simpl. by apply IH.
Qed.

Lemma index_value_missing_required idx data key properties required :
  get idx key = ok properties ->
  get properties "required" = ok required ->
  truthy required = true ->
  hasOwnProperty data key = ok false ->
  index_value idx data key
  = throw (RequestError ("Missing required property: " +:+ key +:+ ".")).
Proof.
  intros Hp Hr Ht Hd. unfold index_value.
  rewrite Hp. simpl. rewrite Hd. simpl.
  assert (exists d, get properties "defaultValue" = ok d) as [d ->].
  { destruct properties; try discriminate; simpl; eauto. }
  simpl. rewrite Hr. simpl. rewrite Ht. reflexivity.
Qed.

Lemma add_validation_failure eng store now path data h data' e :
  store_hasOwnProperty store path = ok (Some h) ->
  (if truthy (transform h) then apply (transform h) data else ok data)
  = ok data' ->
  index_all (indexes h) data' (keys h) [] = throw e ->
  add eng store now path data = (respond 500 (failure_message e), []).
Proof.
  intros Hs Ht He. unfold add. unfold ok in Hs. rewrite Hs, Ht. simpl.
  by rewrite He.
Qed.

(** X28. The declared index fields are examined in registration order and
    [add] fails on the first field that fails: when the fields before [key]
    pass and [key] fails, the answer is the failure of [key] whatever the
    fields after it would do, and nothing is stored; when [key] is required
    and the call [data.hasOwnProperty(key)] answers that the input lacks
    it, that answer is the validation error Missing required property
    naming [key]. *)
Theorem add_first_failing_field eng store now path data h data' pre key post :
  store_hasOwnProperty store path = ok (Some h) ->
  (if truthy (transform h) then apply (transform h) data else ok data)
  = ok data' ->
  keys h = pre ++ key :: post ->
  Forall (fun k => exists v, index_value (indexes h) data' k = ok v) pre ->
  (forall e, index_value (indexes h) data' key = throw e ->
     add eng store now path data = (respond 500 (failure_message e), []))
  /\ (forall properties required,
        get (indexes h) key = ok properties ->
        get properties "required" = ok required ->
        truthy required = true ->
        hasOwnProperty data' key = ok false ->
        add eng store now path data
        = (Response 500 "text/plain"
             [Text ("Missing required property: " +:+ key +:+ ".")], [])).
Proof.
  intros Hs Ht Hk Hpre.
  assert (forall e, index_value (indexes h) data' key = throw e ->
            add eng store now path data = (respond 500 (failure_message e), []))
    as Hfail.
  { intros e He. apply (add_validation_failure _ _ _ _ _ h data'); [done..|].
    rewrite Hk. by apply index_all_first_failure. }
  split; [exact Hfail|].
  intros properties required Hp Hr Hreq Hd.
  apply (Hfail (RequestError ("Missing required property: " +:+ key +:+ "."))).
  by apply (index_value_missing_required _ _ _ properties required).
Qed.

(** ** The record that [add] stores *)

Lemma index_all_total idx data keys : forall item,
  Forall (fun k => exists v, index_value idx data k = ok v) keys ->
  exists item', index_all idx data keys item = ok item'.
Proof.
  induction keys as [|k keys IH]; intros item Hall; simpl; [by eexists|].
  inversion Hall as [|? ? [v Hv] Hall']; subst.
  rewrite Hv. simpl. by apply IH.
Qed.



Lemma index_all_passed idx data keys : forall item item',
  index_all idx data keys item = ok item' ->
  Forall (fun k => exists v, index_value idx data k = ok v) keys.
Proof.
  induction keys as [|key keys IH]; intros item item' H; simpl in H.
  - constructor.
  - apply bind_ok in H as [v [Hv H]]. constructor; [by eexists|by eapply IH].
Qed.

(** What stands behind an insert that [add] asks for. *)
Lemma add_insert_inv eng store now path data p item :
  In (InsertOne p item) (snd (add eng store now path data)) ->
  p = path
  /\ exists h data' item0,
       store_hasOwnProperty store path = ok (Some h)
       /\ (if truthy (transform h) then apply (transform h) data else ok data)
          = ok data'
       /\ index_all (indexes h) data' (keys h) [] = ok item0
       /\ item = set_prop "__data" data'
                   (set_prop "__timestamp" (VNum (Int now)) item0)
       /\ snd (add eng store now path data)
          = [UseCollection path; InsertOne path item]
       /\ (fst (add eng store now path data) = respond 200 EmptyString
           \/ exists e, insertOne eng path item = InsertThrew e).
Proof.
  unfold add.
  destruct (store_hasOwnProperty store path) as [e|[h|]] eqn:Hs; simpl;
    [done| |done].
  destruct (if truthy (transform h) then apply (transform h) data else ok data)
    as [e|data'] eqn:Ht; simpl; [done|].
  destruct (index_all (indexes h) data' (keys h) []) as [e|item0] eqn:Hi;
    simpl; [done|].
  destruct (collection_fault eng path); simpl.
  { intros [?|[]]. done. }
  set (record := set_prop "__data" data'
                   (set_prop "__timestamp" (VNum (Int now)) item0)).
  destruct (insertOne eng path record) eqn:Ho; simpl;
    (intros [?|[Heq|[]]]; [done|]); injection Heq as <- <-;
    (split; [done|]); exists h, data', item0; rewrite Ho;
    repeat (split; [done|]); eauto.
Qed.


(** A write whose promise is rejected is answered like one that is
    accepted. *)
Lemma add_rejected_insert eng store now path data h data' item e :
  store_hasOwnProperty store path = ok (Some h) ->
  (if truthy (transform h) then apply (transform h) data else ok data)
  = ok data' ->
  index_all (indexes h) data' (keys h) [] = ok item ->
  collection_fault eng path = None ->
  insertOne eng path
    (set_prop "__data" data' (set_prop "__timestamp" (VNum (Int now)) item))
  = InsertRejected e ->
  fst (add eng store now path data) = respond 200 EmptyString.
Proof.
  intros Hs Ht Hi Hc Ho. unfold add. unfold ok in Hs.
  rewrite Hs, Ht. simpl. rewrite Hi. simpl. by rewrite Hc, Ho.
Qed.

(** ** Queries *)

Lemma buildQuery_options_plain store path filter options q :
  buildQuery store path filter options = ok q ->
  lookup_prop "hasOwnProperty" options = None.
Proof.
  unfold buildQuery. intros H.
  apply bind_ok in H as [compiled [_ H]].
  apply bind_ok in H as [given [Hgiven _]].
  by apply hasOwnProperty_returns in Hgiven as [? _].
Qed.

Lemma skip_value_plain options count limit :
  lookup_prop "hasOwnProperty" options = None ->
  skip_value options count limit
  = ok (if has_prop "position" options && negb (isNaN (prop options "position"))
        then parseInt (prop options "position")
        else num_sub (Int count) limit).
Proof. intros Ho. unfold skip_value. by rewrite hasOwnProperty_plain. Qed.

Lemma timestamp_option_plain options :
  lookup_prop "hasOwnProperty" options = None ->
  timestamp_option options
  = ok (if has_prop "timestamp" options then
          if truthy (prop options "timestamp") then prop options "timestamp"
          else VStr "timestamp"
        else VUndefined).
Proof. intros Ho. unfold timestamp_option. by rewrite hasOwnProperty_plain. Qed.

(** The two outcomes of a query whose storage calls succeed. *)
Lemma query_out_of_bounds defaultLimit eng store path filter options h q p :
  store_hasOwnProperty store path = ok (Some h) ->
  collection_fault eng path = None ->
  buildQuery store path filter options = ok q ->
  count_fault eng path q = None ->
  let count :=
    Z.of_nat (length (List.filter (matches eng q) (documents eng path))) in
  skip_value options count (Int defaultLimit) = ok (Int p) ->
  p < 1 \/ count < p ->
  query defaultLimit eng store path filter options
  = QueryResult (Response 200 "application/json" []) defaultLimit
      (Some (Int p)) count.
Proof.
  intros Hs Hc Hq Hn count Hp Hb. unfold query. unfold ok in Hs, Hq, Hp.
  rewrite Hs, Hc, Hq, Hn. cbn [limit reply]. fold count. rewrite Hp. simpl.
  replace ((p <? 1) || (count <? p)) with true; [done|].
  symmetry. apply orb_true_iff. rewrite !Z.ltb_lt. exact Hb.
Qed.

Lemma query_in_bounds defaultLimit eng store path filter options h q p ts :
  store_hasOwnProperty store path = ok (Some h) ->
  collection_fault eng path = None ->
  buildQuery store path filter options = ok q ->
  count_fault eng path q = None ->
  let cursor := List.filter (matches eng q) (documents eng path) in
  skip_value options (Z.of_nat (length cursor)) (Int defaultLimit)
  = ok (Int p) ->
  1 <= p <= Z.of_nat (length cursor) ->
  p <= 2 ^ 53 ->
  timestamp_option options = ok ts ->
  query defaultLimit eng store path filter options
  = QueryResult
      (Response 200 "application/json"
         (map (emit ts) (skipn (Z.to_nat (p - 1)) cursor)))
      defaultLimit (Some (Int p)) (Z.of_nat (length cursor)).
Proof.
  intros Hs Hc Hq Hn cursor Hp Hb Hsafe Hts. unfold query.
  unfold ok in Hs, Hq, Hp, Hts.
  rewrite Hs, Hc, Hq, Hn. cbn [limit reply]. fold cursor. rewrite Hp, Hts.
  cbn [num_lt num_sub]. rewrite rounded_safe by lia.
  replace (p <? 1) with false by (symmetry; apply Z.ltb_ge; lia).
  replace (Z.of_nat (length cursor) <? p) with false
    by (symmetry; apply Z.ltb_ge; lia).
  reflexivity.
Qed.

(** Whatever the query, a reported position outside the bounds of the
    reported count comes with the empty success. *)
Lemma query_reported_out_of_bounds defaultLimit eng store path filter options p :
  let r := query defaultLimit eng store path filter options in
  position r = Some (Int p) ->
  p < 1 \/ recordsCount r < p ->
  reply r = Response 200 "application/json" [].
Proof.
  cbv zeta. unfold query. cbv beta zeta.
  destruct (store_hasOwnProperty store path) as [e|[h|]];
    [by simpl| |by simpl].
  destruct (collection_fault eng path); [by simpl|].
  destruct (buildQuery store path filter options) as [e|q]; [by simpl|].
  destruct (count_fault eng path q); [by simpl|].
  set (count :=
         Z.of_nat (length (List.filter (matches eng q) (documents eng path)))).
  destruct (skip_value options count _) as [e|start]; [by simpl|].
  destruct (num_lt start (Int 1) || num_lt (Int count) start) eqn:Hout;
    [by simpl|].
  destruct (bind _ _); simpl; intros [= ->] Hb; simpl in Hout;
    apply orb_false_iff in Hout as [H1 H2];
    apply Z.ltb_ge in H1; apply Z.ltb_ge in H2; lia.
Qed.

(** C3. Whatever the query, a result that reports a position [p] below 1 or
    above the count it reports is an empty success: code 200,
    [application/json], nothing on the stream.  On a registered path whose
    storage calls succeed and for which [buildQuery] returns, a position
    [p] below 1 or above the number [count] of matching documents gives
    that result with [count] and [p] reported; with no matching document,
    no [position] option and a default page size that is a safe integer and
    not negative, the reported position is below 1. *)
Theorem query_out_of_bounds_is_empty_success
    defaultLimit eng store path filter options :
  let r := query defaultLimit eng store path filter options in
  (forall p, position r = Some (Int p) -> p < 1 \/ recordsCount r < p ->
     reply r = Response 200 "application/json" [])
  /\ (forall h q,
        store_hasOwnProperty store path = ok (Some h) ->
        collection_fault eng path = None ->
        buildQuery store path filter options = ok q ->
        count_fault eng path q = None ->
        let count :=
          Z.of_nat (length (List.filter (matches eng q) (documents eng path))) in
        (forall p, skip_value options count (Int defaultLimit) = ok (Int p) ->
           p < 1 \/ count < p ->
           r = QueryResult (Response 200 "application/json" []) defaultLimit
                 (Some (Int p)) count)
        /\ (count = 0 -> has_prop "position" options = false ->
            0 <= defaultLimit < 2 ^ 53 ->
            exists p, p < 1 /\
              r = QueryResult (Response 200 "application/json" []) defaultLimit
                    (Some (Int p)) 0)).
Proof.
  intros r. split; [apply query_reported_out_of_bounds|].
  intros h q Hs Hc Hq Hn count.
  split; [intros p; by apply (query_out_of_bounds _ _ _ _ _ _ h q)|].
  intros H0 Hpos Hl. exists (0 - defaultLimit). split; [lia|].
  rewrite <- H0. apply (query_out_of_bounds _ _ _ _ _ _ h q); try done; [|lia].
  rewrite (skip_value_plain _ _ _ (buildQuery_options_plain _ _ _ _ _ Hq)).
  rewrite Hpos. simpl. fold count. rewrite H0. by rewrite rounded_safe by lia.
Qed.

Lemma parseTime_defined time : defined (parseTime time) = true.
Proof.
  unfold parseTime. destruct (isNaN time); simpl; [|done].
  by destruct (Date_valueOf time).
Qed.

(** What [buildQuery] makes of the time options: nothing without them, and
    otherwise one lower bound, taken from [endTime] when it is there. *)
Lemma buildQuery_time_bound store path filter options q :
  buildQuery store path filter options = ok q ->
  exists compiled,
    filter_keys (store !! path) filter (map fst filter) [] = ok compiled
    /\ q = (if has_prop "endTime" options then
              set_prop "__timestamp"
                (VObj [("$gte", parseTime (prop options "endTime"))]) compiled
            else if has_prop "startTime" options then
              set_prop "__timestamp"
                (VObj [("$gte", parseTime (prop options "startTime"))]) compiled
            else compiled).
Proof.
  unfold buildQuery. intros Hq.
  apply bind_ok in Hq as [compiled [Hc Hq]].
  apply bind_ok in Hq as [start [Hstart Hq]].
  apply bind_ok in Hq as [finish [Hfinish Hq]].
  apply hasOwnProperty_returns in Hstart as [_ ->].
  apply hasOwnProperty_returns in Hfinish as [_ ->].
  exists compiled. split; [done|].
  destruct (has_prop "endTime" options).
  - rewrite parseTime_defined in Hq. simpl in Hq. by injection Hq.
  - destruct (has_prop "startTime" options).
    + rewrite parseTime_defined in Hq. simpl in Hq. by injection Hq.
    + simpl in Hq. by injection Hq.
Qed.

Lemma flat_set_prop k v o :
  flat o -> (forall c, v <> VObj c) -> flat (set_prop k v o).
Proof.
  intros Ho Hv k' c. destruct (string_dec k' k) as [->|Hne].
  - rewrite lookup_set_prop_eq. intros [= ->]. by apply (Hv c).
  - rewrite lookup_set_prop_ne by done. apply Ho.
Qed.

Lemma prop_of_strings (filter : obj) key :
  (forall k v, In (k, v) filter -> exists s, v = VStr s) ->
  prop filter key = VUndefined \/ exists s, prop filter key = VStr s.
Proof.
  unfold prop. induction filter as [|[k v] filter IH]; intros Hstr; simpl.
  - by left.
  - destruct (String.eqb key k).
    + right. apply (Hstr k v). by left.
    + apply IH. intros k' v' Hin. apply (Hstr k' v'). by right.
Qed.

Lemma filter_key_flat item filter result key compiled :
  (forall k v, In (k, v) filter -> exists s, v = VStr s) ->
  flat result ->
  filter_key item filter result key = ok compiled ->
  flat compiled.
Proof.
  intros Hstr Hflat. unfold filter_key. intros Hk.
  apply bind_ok in Hk as [idx [_ Hk]].
  apply bind_ok in Hk as [declared [_ Hk]].
  destruct declared; [|by injection Hk as <-].
  apply bind_ok in Hk as [rule [_ Hk]].
  apply bind_ok in Hk as [type [_ Hk]].
  destruct (is_str type "boolean").
  { injection Hk as <-. by apply flat_set_prop. }
  destruct (is_str type "number").
  { destruct (negb (isNaN (prop filter key))); injection Hk as <-; [|done].
    apply flat_set_prop; [done|]. intros c.
    destruct (contains_dot _); [|done].
    by destruct (parseFloat (prop filter key)). }
  injection Hk as <-. apply flat_set_prop; [done|]. intros c.
  by destruct (prop_of_strings filter key Hstr) as [->|[s ->]].
Qed.

Lemma filter_keys_flat item filter keys : forall result compiled,
  (forall k v, In (k, v) filter -> exists s, v = VStr s) ->
  flat result ->
  filter_keys item filter keys result = ok compiled ->
  flat compiled.
Proof.
  induction keys as [|key keys IH]; intros result compiled Hstr Hflat Hk;
    simpl in Hk.
  - by injection Hk as <-.
  - apply bind_ok in Hk as [result' [Hkey Hk]].
    apply (IH result' compiled Hstr); [|done].
    by apply (filter_key_flat item filter result key).
Qed.

(** C5. Both time options end in the one variable [startTime]: when
    [endTime] is supplied the predicate carries the single lower bound
    [$gte] of the parsed [endTime], whether or not [startTime] is supplied
    too; the time options change the compiled filter by at most that one
    [$gte] bound; and for a filter of raw strings no constraint of the
    predicate has an upper bound [$lte]. *)
Theorem buildQuery_single_lower_bound store path filter options q :
  buildQuery store path filter options = ok q ->
  (has_prop "endTime" options = true ->
     lookup_prop "__timestamp" q
     = Some (VObj [("$gte", parseTime (prop options "endTime"))]))
  /\ (exists compiled,
        filter_keys (store !! path) filter (map fst filter) [] = ok compiled
        /\ (q = compiled
            \/ exists t, q = set_prop "__timestamp" (VObj [("$gte", t)]) compiled))
  /\ ((forall k v, In (k, v) filter -> exists s, v = VStr s) ->
      forall k c, lookup_prop k q = Some (VObj c) -> lookup_prop "$lte" c = None).
Proof.
  intros Hq. apply buildQuery_time_bound in Hq as [compiled [Hc ->]].
  split; [|split].
  - intros ->. apply lookup_set_prop_eq.
  - exists compiled. split; [done|].
    destruct (has_prop "endTime" options); [right; by eexists|].
    destruct (has_prop "startTime" options); [right; by eexists | by left].
  - intros Hstr k c.
    assert (flat compiled) as Hflat.
    { by apply (filter_keys_flat (store !! path) filter (map fst filter) []). }
    assert (forall t, lookup_prop k (set_prop "__timestamp" (VObj [("$gte", t)])
                                       compiled) = Some (VObj c) ->
                      lookup_prop "$lte" c = None) as Hset.
    { intros t. destruct (string_dec k "__timestamp") as [->|Hne].
      - rewrite lookup_set_prop_eq. by intros [= <-].
      - rewrite lookup_set_prop_ne by done. intros Hl. by apply Hflat in Hl. }
    destruct (has_prop "endTime" options); [apply Hset|].
    destruct (has_prop "startTime" options); [apply Hset|].
    intros Hl. by apply Hflat in Hl.
Qed.

(** A bound that is neither numeric nor a date stays in the predicate as a
    lower bound [null]. *)
Lemma buildQuery_unparsable_bound store path filter time q :
  isNaN time = true ->
  Date_valueOf time = NaN ->
  buildQuery store path filter [("startTime", time)] = ok q ->
  lookup_prop "__timestamp" q = Some (VObj [("$gte", VNull)]).
Proof.
  intros Hn Hd Hq. apply buildQuery_time_bound in Hq as [compiled [_ ->]].
  simpl. rewrite lookup_set_prop_eq. unfold parseTime, prop. simpl.
  by rewrite Hn, Hd.
Qed.

(** Without the option [timestamp] the items of an in-bounds query are the
    bare payloads, whatever other option is supplied. *)
Lemma query_items_bare defaultLimit eng store path filter options h q p :
  store_hasOwnProperty store path = ok (Some h) ->
  collection_fault eng path = None ->
  buildQuery store path filter options = ok q ->
  count_fault eng path q = None ->
  has_prop "timestamp" options = false ->
  let cursor := List.filter (matches eng q) (documents eng path) in
  skip_value options (Z.of_nat (length cursor)) (Int defaultLimit)
  = ok (Int p) ->
  1 <= p <= Z.of_nat (length cursor) ->
  p <= 2 ^ 53 ->
  query defaultLimit eng store path filter options
  = QueryResult
      (Response 200 "application/json"
         (map bare (skipn (Z.to_nat (p - 1)) cursor)))
      defaultLimit (Some (Int p)) (Z.of_nat (length cursor)).
Proof.
  intros Hs Hc Hq Hn Hts cursor Hp Hb Hsafe.
  rewrite (query_in_bounds _ _ _ _ _ _ h q p VUndefined); try done.
  rewrite (timestamp_option_plain _ (buildQuery_options_plain _ _ _ _ _ Hq)).
  by rewrite Hts.
Qed.

(** ** The link envelope *)









Lemma assign_NoDup query config : NoDup (map fst (assign query config)).
Proof.
  unfold assign.
  change (fun acc kv => set_prop (fst kv) (snd kv) acc) with assign_step.
  apply fold_assign_NoDup. constructor.
Qed.


End Properties.

(** * The properties at the handlers of the examples *)

(** C2. Once the path hasOwnProperty is registered, what [add] finds
    under [store.hasOwnProperty] is the handler of that path and no longer
    the method: on [v1/metrics], which was never registered, [add] answers
    500 Internal server error and not 404 Not found. *)
Theorem add_unregistered_after_hasOwnProperty :
  shadowed_store !! "v1/metrics" = None
  /\ add (healthy_engine []) shadowed_store 1000 "v1/metrics"
       (VObj [("type", VStr "info")])
     = (Response 500 "text/plain" [Text "Internal server error"], []).
Proof. split; vm_compute; reflexivity. Qed.

(** X29 at the store of the repository: [v1/metrics] was never
    registered. *)
Lemma add_unregistered_not_found_witness :
  add (healthy_engine []) logs_store 1000 "v1/metrics" (VObj [("type", VStr "info")])
  = (Response 404 "text/plain" [Text "Not found"], []).
Proof.
  apply (add_unregistered_not_found (healthy_engine []) ∅
           [[VStr "v1/logs"; logs_indexes]] 1000 "v1/metrics").
  - reflexivity.
  - intros arguments [<-|[]]. vm_compute. discriminate.
  - reflexivity.
  - intros arguments [<-|[]]. vm_compute. discriminate.
Defined.

(** C1. A body with a property of its own named hasOwnProperty and without
    the required field [type]: the call [data.hasOwnProperty('type')]
    throws, and [add] answers 500 Internal server error and not the
    validation error that names [type]. *)
Theorem add_shadowed_input_hides_missing_field :
  add (healthy_engine []) logs_store 1000 "v1/logs"
    (VObj [("hasOwnProperty", VNum (Int 1))])
  = (Response 500 "text/plain" [Text "Internal server error"], []).
Proof. vm_compute. reflexivity. Qed.

(** X28 at the audit handler: [user] and [action] are both required and
    both missing, [source] passes; the error names [user]. *)
Lemma add_first_failing_field_witness :
  add (healthy_engine []) audit_store 1000 "v1/audit"
    (VObj [("source", VStr "web")])
  = (Response 500 "text/plain" [Text "Missing required property: user."], []).
Proof.
  destruct (add_first_failing_field (healthy_engine []) audit_store 1000
              "v1/audit" (VObj [("source", VStr "web")])
              (Handler audit_indexes ["source"; "user"; "action"] VUndefined)
              (VObj [("source", VStr "web")]) ["source"] "user" ["action"])
    as [_ Hmissing].
  - vm_compute. reflexivity.
  - reflexivity.
  - reflexivity.
  - constructor; [|constructor]. exists (VStr "web"). reflexivity.
  - apply (Hmissing (VObj [("required", VBool true)]) (VBool true));
      reflexivity.
Defined.

(** C8. The write of a valid record to a registered path fails (the promise
    returned by [insertOne] is rejected), and [add] still answers 200 with an
    empty body instead of the internal-error result. *)
Theorem add_rejected_insert_reports_success :
  fst (add (rejecting_engine []) logs_store 1000 "v1/logs"
         (VObj [("type", VStr "info")]))
  = Response 200 "text/plain" [Text EmptyString].
Proof. vm_compute. reflexivity. Qed.



(** C3 at an empty collection with page size 10 and no options: position
    -10, an empty success. *)
Lemma query_out_of_bounds_is_empty_success_witness :
  query 10 (healthy_engine []) logs_store "v1/logs" [] []
  = QueryResult (Response 200 "application/json" []) 10 (Some (Int (-10))) 0.
Proof.
  destruct (query_out_of_bounds_is_empty_success 10 (healthy_engine [])
              logs_store "v1/logs" [] []) as [_ Hsteps].
  destruct (Hsteps (Handler logs_indexes ["type"] VUndefined) [])
    as [Hout Hempty].
  - vm_compute. reflexivity.
  - reflexivity.
  - vm_compute. reflexivity.
  - reflexivity.
  - destruct Hempty as [p [Hp Hq]];
      [reflexivity | reflexivity | vm_compute; split; congruence |].
    apply (Hout (-10)); [reflexivity | lia].
Defined.

(** C5 with both bounds supplied: only [endTime] is left, as a lower bound. *)
Lemma buildQuery_single_lower_bound_witness :
  exists q,
    buildQuery logs_store "v1/logs" [("type", VStr "info")]
      [("startTime", VStr "1000"); ("endTime", VStr "2000")] = ok q
    /\ lookup_prop "__timestamp" q = Some (VObj [("$gte", VNum (Int 2000))])
    /\ (forall k c, lookup_prop k q = Some (VObj c) -> lookup_prop "$lte" c = None).
Proof.
  exists [("type", VStr "info");
          ("__timestamp", VObj [("$gte", VNum (Int 2000))])].
  assert (buildQuery logs_store "v1/logs" [("type", VStr "info")]
            [("startTime", VStr "1000"); ("endTime", VStr "2000")]
          = ok [("type", VStr "info");
                ("__timestamp", VObj [("$gte", VNum (Int 2000))])]) as Hq.
  { vm_compute. reflexivity. }
  destruct (buildQuery_single_lower_bound _ _ _ _ _ Hq) as [Hend [_ Hflat]].
  split; [exact Hq|]. split.
  - apply Hend. reflexivity.
  - apply Hflat. intros k v [Heq|[]]. injection Heq as <- <-. by eexists.
Defined.


(** C6. The unparsable bound is not dropped: the predicate compiled for
    [startTime=yesterday] carries the constraint [$gte: null]. *)
Theorem buildQuery_unparsable_bound_kept :
  buildQuery logs_store "v1/logs" [] [("startTime", VStr "yesterday")]
  = ok [("__timestamp", VObj [("$gte", VNull)])].
Proof. vm_compute. reflexivity. Qed.

(** C7. The option the code reads is [timestamp]: with [timestampProperty]
    the items are the bare payloads, and an item is annotated when
    [timestamp] is supplied although [timestampProperty] is not. *)
Theorem query_ignores_timestampProperty :
  query 10 (healthy_engine [logged "info" 1000]) logs_store "v1/logs" []
    [("timestampProperty", VStr "ts"); ("position", VStr "1")]
  = QueryResult
      (Response 200 "application/json" [Item (VObj [("type", VStr "info")])])
      10 (Some (Int 1)) 1
  /\ query 10 (healthy_engine [logged "info" 1000]) logs_store "v1/logs" []
       [("timestamp", VStr "ts"); ("position", VStr "1")]
     = QueryResult
         (Response 200 "application/json"
            [Item (VObj [("type", VStr "info"); ("ts", VNum (Int 1000))])])
         10 (Some (Int 1)) 1.
Proof. split; vm_compute; reflexivity. Qed.

(** * Further properties *)

Section Registry.
Context {rt : Runtime}.

Lemma forEach_ok {A} (f : A -> res unit) l :
  forEach f l = ok tt -> forall x, In x l -> f x = ok tt.
Proof.
  induction l as [|y l IH]; simpl; [done|].
  intros Hf x [->|Hin].
  - destruct (f x) as [e|[]]; [discriminate|done].
  - apply IH; [|done]. by destruct (f y) as [e|[]].
Qed.

Lemma typeof_function v : String.eqb (typeof v) "function" = true ->
  exists id, v = VFun id.
Proof. destruct v; try discriminate. eauto. Qed.

Lemma is_str_eq v s : is_str v s = true -> v = VStr s.
Proof.
  destruct v; try discriminate. simpl. intros H.
  apply String.eqb_eq in H. by subst.
Qed.

Lemma falsy_or_function v :
  truthy v && negb (String.eqb (typeof v) "function") = false ->
  truthy v = false \/ exists id, v = VFun id.
Proof.
  destruct (truthy v); [|by left]. simpl. intros H.
  right. apply typeof_function. by destruct (String.eqb _ _).
Qed.

Lemma check_index_accepted path idx key :
  check_index path idx key = ok tt ->
  exists item, get idx key = ok item /\ rule_accepted item.
Proof.
  unfold check_index. intros H.
  apply bind_ok in H as [item [Hitem H]].
  apply bind_ok in H as [type [Htype H]].
  apply bind_ok in H as [[] [Hcheck H]]. apply throw_if_ok in Hcheck.
  apply bind_ok in H as [validator [Hvalidator H]].
  apply bind_ok in H as [[] [Hcheck' H]]. apply throw_if_ok in Hcheck'.
  apply bind_ok in H as [value [Hvalue H]]. apply throw_if_ok in H.
  exists item. split; [done|]. exists type, validator, value.
  repeat (split; [done|]). split; [|split; by apply falsy_or_function].
  destruct (truthy type); [|by left]. simpl in Hcheck.
  destruct (is_str type "string") eqn:Es; [right; left; by apply is_str_eq|].
  destruct (is_str type "number") eqn:En;
    [right; right; left; by apply is_str_eq|].
  destruct (is_str type "boolean") eqn:Eb; [|discriminate].
  right; right; right; by apply is_str_eq.
Qed.

(** X1. What a successful [handle] leaves in the store: a handler that
    holds the index configuration as it was passed, which is an object, its
    keys in the order of the object, and the transform; every rule of the
    configuration has a type that is falsy or one of string, number and
    boolean, and a validator and a value hook that are falsy or functions;
    the transform is falsy or a function.  The handler is what the store
    has for the path, unless the path is [__proto__]: that assignment
    creates no property and leaves the store as it was.  Every other path
    keeps its handler. *)
Theorem handle_registers_checked_rules store arguments store' :
  handle store arguments = ok store' ->
  exists h,
    (path_of arguments <> "__proto__" -> store' !! path_of arguments = Some h)
    /\ (path_of arguments = "__proto__" -> store !! "__proto__" = None ->
        store' = store)
    /\ indexes h = nth 1 arguments VUndefined
    /\ transform h = nth 2 arguments VUndefined
    /\ (exists o, indexes h = VObj o /\ keys h = map fst o)
    /\ (forall key, In key (keys h) ->
          exists item, get (indexes h) key = ok item /\ rule_accepted item)
    /\ (truthy (transform h) = false \/ exists id, transform h = VFun id)
    /\ (forall p, p <> path_of arguments -> store' !! p = store !! p).
Proof.
  unfold handle. intros H.
  apply bind_ok in H as [ks [Hkeys H]].
  assert ((length arguments =? 1)%nat = false) as Hlen.
  { destruct arguments as [|a [|b l]]; try done. }
  rewrite Hlen in H.
  apply bind_ok in H as [[] [Htype H]]. apply throw_if_ok in Htype.
  apply bind_ok in H as [[] [Hrules H]].
  apply bind_ok in H as [[] [Htransform H]]. apply throw_if_ok in Htransform.
  injection H as <-.
  eexists. split; [intros Hp; by apply store_put_eq|].
  split.
  { fold (path_of arguments). intros -> Hnone. unfold store_put.
    by rewrite Hnone. }
  simpl. repeat (split; [done|]).
  split.
  { destruct (nth 1 arguments VUndefined); try discriminate.
    injection Hkeys as <-. eauto. }
  split.
  { intros key Hin. apply (check_index_accepted (path_of arguments)).
    by apply (forEach_ok _ _ Hrules). }
  split; [by apply falsy_or_function|].
  intros p Hp. by apply store_put_other.
Qed.

(** X2. An index configuration that is not an object is refused and nothing
    is registered: [undefined] and [null] with the [TypeError] of
    [Object.keys], every other value that is not of type object with the
    error Command handler index must be an object. *)
Theorem handle_refuses_non_object_indexes store arguments :
  let idx := nth 1 arguments VUndefined in
  (idx = VUndefined \/ idx = VNull ->
     handle store arguments
     = throw (TypeError "Cannot convert undefined or null to object"))
  /\ (idx <> VUndefined -> typeof idx <> "object" ->
      handle store arguments
      = throw (Error "Command handler index must be an object")).
Proof.
  intros idx. split.
  - intros Hidx. unfold handle. fold idx. by destruct Hidx as [->| ->].
  - intros Hdef Htype. unfold handle. fold idx.
    assert ((length arguments =? 1)%nat = false) as ->.
    { destruct arguments as [|a [|b l]]; try done. }
    assert (exists ks, Object_keys idx = ok ks) as [ks ->].
    { destruct idx; simpl; eauto; done. }
    simpl. destruct (String.eqb (typeof idx) "object") eqn:E; [|done].
    by apply String.eqb_eq in E.
Qed.

Lemma buildQuery_same_handler store store' path filter options :
  store' !! path = store !! path ->
  buildQuery store' path filter options = buildQuery store path filter options.
Proof. intros H. unfold buildQuery. by rewrite H. Qed.

(** X3. Registering a path other than hasOwnProperty changes nothing for
    another path: after a successful [handle], [add] and [query] on any
    other path answer as before.  Registering the path hasOwnProperty
    changes every path: from then on [add] answers 500 Internal server
    error whatever it is given. *)
Theorem handle_leaves_other_paths store arguments store' :
  handle store arguments = ok store' ->
  (path_of arguments <> "hasOwnProperty" ->
   forall path, path <> path_of arguments ->
     (forall eng now data,
        add eng store' now path data = add eng store now path data)
     /\ (forall defaultLimit eng filter options,
          query defaultLimit eng store' path filter options
          = query defaultLimit eng store path filter options))
  /\ (path_of arguments = "hasOwnProperty" ->
      forall eng now path data,
        add eng store' now path data
        = (Response 500 "text/plain" [Text "Internal server error"], [])).
Proof.
  intros H. apply handle_registers in H as [h ->]. split.
  - intros Hplain path Hp.
    assert (store_put (path_of arguments) h store !! path = store !! path)
      as Hl by by apply store_put_other.
    assert (store_hasOwnProperty (store_put (path_of arguments) h store) path
            = store_hasOwnProperty store path) as Hsame.
    { unfold store_hasOwnProperty. rewrite Hl.
      by rewrite store_put_other by congruence. }
    split.
    + intros. unfold add. by rewrite Hsame.
    + intros. unfold query.
      by rewrite Hsame, (buildQuery_same_handler _ _ _ _ _ Hl).
  - intros -> eng now path data. unfold add, store_hasOwnProperty.
    by rewrite store_put_eq.
Qed.

End Registry.

Section Adding.
Context {rt : Runtime}.

(** X4. Whatever it is given, [add] answers with one text chunk of type
    [text/plain] and one of the codes 404, 200 and 500; the code is 404
    exactly when [store.hasOwnProperty(path)] answers [false], that is when
    the store has no handler for the path and none for the path
    hasOwnProperty; the engine is asked for nothing, for the collection
    alone, or for the collection and one insert into the collection of the
    path, and an answer 200 comes with the insert. *)
Theorem add_answers store eng now path data :
  let answer := fst (add eng store now path data) in
  let calls := snd (add eng store now path data) in
  contentType answer = "text/plain"
  /\ (exists message, content answer = [Text message])
  /\ (code answer = 404 \/ code answer = 200 \/ code answer = 500)
  /\ (code answer = 404
      <-> store !! "hasOwnProperty" = None /\ store !! path = None)
  /\ (calls = [] \/ calls = [UseCollection path]
      \/ exists item, calls = [UseCollection path; InsertOne path item])
  /\ (code answer = 200 ->
      exists item, calls = [UseCollection path; InsertOne path item]).
Proof.
  unfold add, store_hasOwnProperty.
  destruct (store !! "hasOwnProperty") as [shadow|]; simpl.
  { repeat split; eauto; try done. by intros [? _]. }
  destruct (store !! path) as [h|]; simpl.
  2: { repeat split; eauto; done. }
  match goal with |- context [match ?b with inl _ => _ | inr _ => _ end] =>
    destruct b as [e|item] end; simpl.
  { repeat split; eauto; try done. by intros [_ ?]. }
  destruct (collection_fault eng path); simpl.
  { repeat split; eauto; try done. by intros [_ ?]. }
  destruct (insertOne eng path item); simpl;
    repeat split; eauto 6; try done; by intros [_ ?].
Qed.

(** X5. Nothing reaches [insertOne] unless every declared field passed:
    when [add] asks for an insert, the path is registered, the transform (if
    any) returned, every key of the handler has a value, and the record is
    those values with [__timestamp] and [__data] set on top. *)
Theorem add_inserts_only_validated eng store now path data p item :
  In (InsertOne p item) (snd (add eng store now path data)) ->
  p = path
  /\ exists h data' item0,
       store !! path = Some h
       /\ (if truthy (transform h) then apply (transform h) data else ok data)
          = ok data'
       /\ Forall (fun k => exists v, index_value (indexes h) data' k = ok v)
            (keys h)
       /\ index_all (indexes h) data' (keys h) [] = ok item0
       /\ item = set_prop "__data" data'
                   (set_prop "__timestamp" (VNum (Int now)) item0).
Proof.
  intros Hin.
  destruct (add_insert_inv _ _ _ _ _ _ _ Hin)
    as (-> & h & data' & item0 & Hs & Ht & H0 & -> & _).
  split; [done|]. exists h, data', item0.
  apply store_hasOwnProperty_returns in Hs as [_ Hs].
  repeat split; try done. by apply (index_all_passed _ _ _ [] item0).
Qed.

(** X6. An optional field with a declared type and no default cannot be
    left out: for a rule without [required] and without [defaultValue] whose
    type is a string other than undefined, an input that lacks the field
    fails with Invalid type for property. *)
Theorem index_value_optional_typed_field_missing idx data key rule t :
  get idx key = ok (VObj rule) ->
  lookup_prop "defaultValue" rule = None ->
  truthy (prop rule "required") = false ->
  lookup_prop "type" rule = Some (VStr t) ->
  t <> EmptyString ->
  t <> "undefined" ->
  hasOwnProperty data key = ok false ->
  index_value idx data key
  = throw (RequestError ("Invalid type for property: " +:+ key
                         +:+ ". Expected " +:+ t)).
Proof.
  intros Hrule Hdefault Hrequired Htype Ht Hu Hdata. unfold index_value.
  rewrite Hrule. simpl. rewrite Hdata. simpl.
  unfold prop in Hrequired. rewrite Hdefault.
  destruct (lookup_prop "required" rule) as [r|]; simpl; rewrite ?Hrequired;
    simpl; rewrite Htype; simpl.
  all: assert (String.eqb t EmptyString = false) as -> by by apply String.eqb_neq.
  all: assert (String.eqb t "undefined" = false) as -> by by apply String.eqb_neq.
  all: reflexivity.
Qed.

(** X7. Why a field of an object input can fail under a rule that is an
    object: the input has a property of its own named hasOwnProperty, so
    that the call of the method throws; or one of the three validation
    errors, each naming the key; or whatever the call of the validator or
    of the value hook throws. *)
Theorem index_value_failures idx rule o key e :
  get idx key = ok (VObj rule) ->
  index_value idx (VObj o) key = throw e ->
  (lookup_prop "hasOwnProperty" o <> None /\ e = not_a_function)
  \/ e = RequestError ("Missing required property: " +:+ key +:+ ".")
  \/ e = RequestError ("Invalid type for property: " +:+ key +:+ ". Expected "
                       +:+ to_string (prop rule "type"))
  \/ e = RequestError ("Validation failed for property: " +:+ key +:+ ".")
  \/ (exists value, apply (prop rule "validator") value = throw e)
  \/ (exists value, apply (prop rule "value") value = throw e).
Proof.
  intros Hrule. unfold index_value. rewrite Hrule. simpl.
  destruct (lookup_prop "hasOwnProperty" o) as [shadow|] eqn:Hshadow; simpl.
  { intros [= <-]. by left. }
  set (value := if match lookup_prop key o with Some _ => true | None => false end
                then _ else _).
  fold (prop rule "defaultValue") (prop rule "required") (prop rule "type")
       (prop rule "validator") (prop rule "value").
  assert (exists v, value = ok v) as [v ->].
  { unfold value. destruct (lookup_prop key o); simpl; eauto. }
  simpl. intros H. right.
  destruct (truthy (prop rule "required") && _); simpl in H.
  { injection H as <-. by left. }
  destruct (truthy (prop rule "type") && _); simpl in H.
  { injection H as <-. right. by left. }
  destruct (truthy (prop rule "validator")).
  - apply bind_throw in H as [H|[valid [Hvalid H]]].
    + apply bind_throw in H as [H|[r [_ H]]]; [|done].
      right; right; right; left. eauto.
    + destruct valid; simpl in H.
      * destruct (truthy (prop rule "value")); [|done].
        right; right; right; right. eauto.
      * injection H as <-. right; right; by left.
  - simpl in H. destruct (truthy (prop rule "value")); [|done].
    right; right; right; right. eauto.
Qed.

(** X8. A default value is treated as if it had been sent: when the field
    is not required and is not named hasOwnProperty, and the input object
    lacks it, the field gets the value it would get from the input with the
    default filled in. *)
Theorem index_value_default_as_supplied idx o key rule :
  get idx key = ok (VObj rule) ->
  truthy (prop rule "required") = false ->
  key <> "hasOwnProperty" ->
  lookup_prop key o = None ->
  index_value idx (VObj o) key
  = index_value idx (VObj (set_prop key (prop rule "defaultValue") o)) key.
Proof.
  intros Hrule Hrequired Hkey Hnone. unfold index_value.
  rewrite Hrule. simpl.
  rewrite (lookup_set_prop_ne "hasOwnProperty" key) by congruence.
  destruct (lookup_prop "hasOwnProperty" o); [done|].
  rewrite Hnone, lookup_set_prop_eq. simpl.
  fold (prop rule "defaultValue") (prop rule "required").
  by rewrite Hrequired.
Qed.


End Adding.

Section Compiling.
Context {rt : Runtime}.

Lemma filter_key_other item filter result key r k :
  filter_key item filter result key = ok r ->
  k <> key -> lookup_prop k r = lookup_prop k result.
Proof.
  unfold filter_key. intros H Hk.
  apply bind_ok in H as [idx [_ H]].
  apply bind_ok in H as [declared [_ H]].
  destruct declared; [|by injection H as <-].
  apply bind_ok in H as [rule [_ H]].
  apply bind_ok in H as [type [_ H]].
  destruct (is_str type "boolean").
  { injection H as <-. by apply lookup_set_prop_ne. }
  destruct (is_str type "number").
  { destruct (negb _); injection H as <-; [by apply lookup_set_prop_ne|done]. }
  injection H as <-. by apply lookup_set_prop_ne.
Qed.

Lemma filter_key_declared item filter result key r :
  filter_key item filter result key = ok r ->
  r = result
  \/ exists h, item = Some h /\ hasOwnProperty (indexes h) key = ok true.
Proof.
  unfold filter_key. intros H.
  apply bind_ok in H as [idx [Hidx H]].
  apply bind_ok in H as [declared [Hd H]].
  destruct declared; [|left; by injection H as <-].
  right. destruct item as [h|]; [|done]. injection Hidx as <-. eauto.
Qed.




Lemma filter_keys_declared item filter keys k : forall result q,
  filter_keys item filter keys result = ok q ->
  lookup_prop k q <> None ->
  lookup_prop k result <> None
  \/ (In k keys
      /\ exists h, item = Some h /\ hasOwnProperty (indexes h) k = ok true).
Proof.
  induction keys as [|key keys IH]; intros result q H Hk; simpl in H.
  - injection H as <-. by left.
  - apply bind_ok in H as [r [Hr H]].
    destruct (IH _ _ H Hk) as [Hres|[Hin Hd]]; [|right; split; [by right|done]].
    destruct (string_dec k key) as [->|Hne].
    + destruct (filter_key_declared _ _ _ _ _ Hr) as [->|Hd]; [by left|].
      right. split; [by left|done].
    + left. by rewrite <- (filter_key_other _ _ _ _ _ _ Hr Hne).
Qed.

Lemma buildQuery_field store path filter options q k :
  buildQuery store path filter options = ok q ->
  k <> "__timestamp" ->
  exists compiled,
    filter_keys (store !! path) filter (map fst filter) [] = ok compiled
    /\ lookup_prop k q = lookup_prop k compiled.
Proof.
  intros Hq Hk. apply buildQuery_time_bound in Hq as [compiled [Hc ->]].
  exists compiled. split; [done|].
  destruct (has_prop "endTime" options); [by apply lookup_set_prop_ne|].
  destruct (has_prop "startTime" options); [by apply lookup_set_prop_ne|done].
Qed.

(** X10. The predicate only constrains what was asked for and is declared:
    every key of the compiled predicate is [__timestamp] or a key of the
    filter that the index configuration of the path declares; a filter key
    that is not declared is left out. *)
Theorem buildQuery_ignores_undeclared_keys store path filter options q k :
  buildQuery store path filter options = ok q ->
  lookup_prop k q <> None ->
  k = "__timestamp"
  \/ (In k (map fst filter)
      /\ exists h, store !! path = Some h
                   /\ hasOwnProperty (indexes h) k = ok true).
Proof.
  intros Hq Hk. destruct (string_dec k "__timestamp") as [->|Hne]; [by left|].
  right. destruct (buildQuery_field _ _ _ _ _ k Hq Hne) as [compiled [Hc Hl]].
  rewrite Hl in Hk.
  by destruct (filter_keys_declared _ _ _ _ _ _ Hc Hk) as [?|?].
Qed.




(** X14. A start time alone is the lower bound of the predicate: numeric
    input through [parseInt], a date through its time value; with neither
    time option the predicate is the compiled filter and nothing else. *)
Theorem buildQuery_start_time store path filter options q :
  buildQuery store path filter options = ok q ->
  has_prop "endTime" options = false ->
  let time := prop options "startTime" in
  (has_prop "startTime" options = true ->
     exists t,
       lookup_prop "__timestamp" q = Some (VObj [("$gte", t)])
       /\ (isNaN time = false -> t = VNum (parseInt time))
       /\ (forall ms, isNaN time = true -> Date_valueOf time = Int ms ->
             t = VNum (Int ms)))
  /\ (has_prop "startTime" options = false ->
      filter_keys (store !! path) filter (map fst filter) [] = ok q).
Proof.
  intros Hq Hend time. apply buildQuery_time_bound in Hq as [compiled [Hc ->]].
  rewrite Hend. split.
  - intros ->. exists (parseTime time). split; [apply lookup_set_prop_eq|].
    unfold parseTime. split.
    + by intros ->.
    + intros ms -> Hms. simpl. by rewrite Hms.
  - by intros ->.
Qed.

End Compiling.

Section Paging.
Context {rt : Runtime}.

(** X15. A collection that does not hold more matching records than the
    default page size (a safe integer) shows nothing by default: with no
    [position] option the position is the count less the page size, which
    is below 1, and the answer is the empty success. *)
Theorem query_default_window_of_small_collection
    defaultLimit eng store path filter options h q :
  store_hasOwnProperty store path = ok (Some h) ->
  collection_fault eng path = None ->
  buildQuery store path filter options = ok q ->
  count_fault eng path q = None ->
  has_prop "position" options = false ->
  let count :=
    Z.of_nat (length (List.filter (matches eng q) (documents eng path))) in
  count <= defaultLimit < 2 ^ 53 ->
  query defaultLimit eng store path filter options
  = QueryResult (Response 200 "application/json" []) defaultLimit
      (Some (Int (count - defaultLimit))) count.
Proof.
  intros Hs Hc Hq Hn Hpos count Hsmall.
  apply (query_out_of_bounds _ _ _ _ _ _ h q); try done; [|lia].
  rewrite (skip_value_plain _ _ _ (buildQuery_options_plain _ _ _ _ _ Hq)).
  rewrite Hpos. simpl. fold count. by rewrite rounded_safe by lia.
Qed.

(** X16. The default window of [query] on a larger collection: with no
    [position] and no [timestamp] option and more matching records than the
    page size [l], though fewer than [2^53], the position is the count less
    [l], and the stream holds the bare payloads of all the records from
    there to the last one, which are [l + 1] records; a [limit] option
    changes nothing. *)
Theorem query_default_window defaultLimit eng store path filter options h q :
  store_hasOwnProperty store path = ok (Some h) ->
  collection_fault eng path = None ->
  buildQuery store path filter options = ok q ->
  count_fault eng path q = None ->
  has_prop "position" options = false ->
  has_prop "timestamp" options = false ->
  let cursor := List.filter (matches eng q) (documents eng path) in
  let count := Z.of_nat (length cursor) in
  0 <= defaultLimit < count ->
  count < 2 ^ 53 ->
  query defaultLimit eng store path filter options
  = QueryResult
      (Response 200 "application/json"
         (map bare (skipn (Z.to_nat (count - defaultLimit - 1)) cursor)))
      defaultLimit (Some (Int (count - defaultLimit))) count
  /\ length (skipn (Z.to_nat (count - defaultLimit - 1)) cursor)
     = Z.to_nat (defaultLimit + 1).
Proof.
  intros Hs Hc Hq Hn Hpos Hts cursor count Hl Hsafe. split.
  - apply (query_items_bare _ _ _ _ _ _ h q); try done;
      [|fold cursor count; lia..].
    rewrite (skip_value_plain _ _ _ (buildQuery_options_plain _ _ _ _ _ Hq)).
    rewrite Hpos. simpl. fold cursor count. by rewrite rounded_safe by lia.
  - rewrite length_skipn. unfold count in *. lia.
Qed.



(** X18. Whatever it is given, [query] answers with one of the codes 404,
    200 and 500: 404 exactly when [store.hasOwnProperty(path)] answers
    [false], that is when the store has no handler for the path and none
    for the path hasOwnProperty; the content type is [application/json]
    exactly when the code is 200; the reported page size is the default
    one, whatever the options say; and a result without a position is not
    a success. *)
Theorem query_answers defaultLimit eng store path filter options :
  let result := query defaultLimit eng store path filter options in
  (code (reply result) = 404 \/ code (reply result) = 200
   \/ code (reply result) = 500)
  /\ (code (reply result) = 404
      <-> store !! "hasOwnProperty" = None /\ store !! path = None)
  /\ (contentType (reply result) = "application/json"
      <-> code (reply result) = 200)
  /\ limit result = defaultLimit
  /\ (position result = None -> code (reply result) <> 200).
Proof.
  unfold query, store_hasOwnProperty.
  destruct (store !! "hasOwnProperty") as [shadow|]; simpl.
  { repeat split; eauto; try done. by intros [? _]. }
  destruct (store !! path) as [h|]; simpl.
  2: { repeat split; eauto; done. }
  destruct (collection_fault eng path); simpl.
  { repeat split; eauto; try done. by intros [_ ?]. }
  destruct (buildQuery store path filter options) as [e|q]; simpl.
  { repeat split; eauto; try done. by intros [_ ?]. }
  destruct (count_fault eng path q); simpl.
  { repeat split; eauto; try done. by intros [_ ?]. }
  destruct (skip_value options _ _) as [e|start]; simpl.
  { repeat split; eauto; try done. by intros [_ ?]. }
  destruct (_ || _); simpl.
  { repeat split; eauto; try done. by intros [_ ?]. }
  destruct (bind _ _); simpl; repeat split; eauto; try done; by intros [_ ?].
Qed.

End Paging.

Section Capped.
Context {rt : Runtime}.
Variables defaultLimit maxLimit : Z.
Variable limit_other : number -> list obj -> res (list obj).

Lemma page_limit_plain options :
  lookup_prop "hasOwnProperty" options = None ->
  Query2.page_limit defaultLimit maxLimit options
  = ok (let limit :=
          if has_prop "limit" options && negb (isNaN (prop options "limit"))
          then parseInt (prop options "limit") else Int defaultLimit in
        if num_lt (Int maxLimit) limit then Int maxLimit else limit).
Proof. intros Ho. unfold Query2.page_limit. by rewrite hasOwnProperty_plain. Qed.

Lemma page_limit_capped options l :
  Query2.page_limit defaultLimit maxLimit options = ok (Int l) ->
  l <= maxLimit.
Proof.
  unfold Query2.page_limit. intros H.
  apply bind_ok in H as [given [_ H]]. injection H as H. revert H.
  destruct (if given && _ then _ else _) as [|z]; simpl; [done|].
  destruct (Z.ltb_spec maxLimit z); intros [= <-]; lia.
Qed.

(** X19. The page size of a successful [query2] is never above the
    configured maximum: it is the smaller of the maximum and the [limit]
    option when [parseInt] reads an integer from a numeric option, and the
    smaller of the maximum and the default when there is no such option. *)
Theorem query2_caps_the_limit eng store path filter options :
  let result :=
    Query2.query2 defaultLimit maxLimit limit_other eng store path filter
      options in
  code (Query2.reply result) = 200 ->
  Query2.page_limit defaultLimit maxLimit options = ok (Query2.limit result)
  /\ (forall l, Query2.limit result = Int l -> l <= maxLimit)
  /\ (forall n, has_prop "limit" options = true ->
        isNaN (prop options "limit") = false ->
        parseInt (prop options "limit") = Int n ->
        Query2.limit result = Int (Z.min n maxLimit))
  /\ (has_prop "limit" options = false ->
      Query2.limit result = Int (Z.min defaultLimit maxLimit)).
Proof.
  intros result Hcode.
  assert (Query2.page_limit defaultLimit maxLimit options
          = ok (Query2.limit result)
          /\ lookup_prop "hasOwnProperty" options = None) as [Hl Hplain].
  { revert Hcode. unfold result, Query2.query2.
    destruct (store_hasOwnProperty store path) as [e|[h|]]; simpl; [done| |done].
    destruct (collection_fault eng path); simpl; [done|].
    destruct (buildQuery store path filter options) eqn:Hq; simpl; [done|].
    apply buildQuery_options_plain in Hq.
    destruct (count_fault eng path _); simpl; [done|].
    destruct (Query2.page_limit defaultLimit maxLimit options); simpl; [done|].
    destruct (skip_value options _ _); simpl; [done|].
    destruct (_ || _); simpl; [done|].
    by destruct (bind _ _). }
  split; [done|]. split.
  { intros l Heq. rewrite Heq in Hl. by apply (page_limit_capped options). }
  rewrite (page_limit_plain _ Hplain) in Hl. injection Hl as <-. split.
  - intros n -> -> ->. simpl. destruct (Z.ltb_spec maxLimit n); f_equal; lia.
  - intros ->. simpl. destruct (Z.ltb_spec maxLimit defaultLimit); f_equal; lia.
Qed.

(** X20. The default window of [query2]: with no [position] and no
    [timestamp] option, a page size [l] of at least 1 and more matching
    records than [l], though fewer than [2^53], the position is the count
    less [l] and the stream holds [l] bare payloads: the last [l + 1]
    matching records without the very last one. *)
Theorem query2_default_window eng store path filter options h q l :
  store_hasOwnProperty store path = ok (Some h) ->
  collection_fault eng path = None ->
  buildQuery store path filter options = ok q ->
  count_fault eng path q = None ->
  has_prop "position" options = false ->
  has_prop "timestamp" options = false ->
  Query2.page_limit defaultLimit maxLimit options = ok (Int l) ->
  let cursor := List.filter (matches eng q) (documents eng path) in
  let count := Z.of_nat (length cursor) in
  1 <= l < count ->
  count < 2 ^ 53 ->
  Query2.query2 defaultLimit maxLimit limit_other eng store path filter options
  = Query2.Result
      (Response 200 "application/json"
         (map bare (removelast (skipn (Z.to_nat (count - l - 1)) cursor))))
      (Int l) (Some (Int (count - l))) count
  /\ length (removelast (skipn (Z.to_nat (count - l - 1)) cursor))
     = Z.to_nat l.
Proof.
  intros Hs Hc Hq Hn Hpos Hts Hl cursor count Hb Hsafe.
  pose proof (buildQuery_options_plain _ _ _ _ _ Hq) as Hplain.
  assert (length (skipn (Z.to_nat (count - l - 1)) cursor) = S (Z.to_nat l))
    as Hlen.
  { rewrite length_skipn. unfold count in *. lia. }
  assert (removelast (skipn (Z.to_nat (count - l - 1)) cursor)
          = firstn (Z.to_nat l) (skipn (Z.to_nat (count - l - 1)) cursor))
    as ->.
  { by rewrite removelast_firstn_len, Hlen. }
  split.
  - unfold Query2.query2. unfold ok in Hs, Hq, Hl. rewrite Hs, Hc, Hq, Hn, Hl.
    cbn [Query2.limit Query2.reply]. fold cursor count.
    rewrite (skip_value_plain _ _ _ Hplain), (timestamp_option_plain _ Hplain).
    rewrite Hpos, Hts. cbn [andb num_sub]. unfold ok.
    rewrite (rounded_safe (count - l)) by lia. cbn [num_lt num_sub].
    rewrite (rounded_safe (count - l - 1)) by lia.
    replace (count - l <? 1) with false by (symmetry; apply Z.ltb_ge; lia).
    replace (count <? count - l) with false by (symmetry; apply Z.ltb_ge; lia).
    simpl. replace (0 <? l) with true by (symmetry; apply Z.ltb_lt; lia).
    reflexivity.
  - rewrite length_firstn, Hlen. lia.
Qed.

(** X21. Without a [limit] option, and with a default page size between 1
    and the maximum, [query2] is [query] cut to the page size: same code,
    content type, position and count, the default page size as limit, and
    as content the first page-size chunks of the content of [query]. *)
Theorem query2_cuts_query eng store path filter options :
  has_prop "limit" options = false ->
  1 <= defaultLimit <= maxLimit ->
  let r := query defaultLimit eng store path filter options in
  let r2 :=
    Query2.query2 defaultLimit maxLimit limit_other eng store path filter
      options in
  code (Query2.reply r2) = code (reply r)
  /\ contentType (Query2.reply r2) = contentType (reply r)
  /\ Query2.position r2 = position r
  /\ Query2.recordsCount r2 = recordsCount r
  /\ Query2.limit r2 = Int (limit r)
  /\ content (Query2.reply r2)
     = firstn (Z.to_nat defaultLimit) (content (reply r)).
Proof.
  intros Hlim Hdl.
  assert (forall c : chunk, firstn (Z.to_nat defaultLimit) [c] = [c]) as Hone.
  { intros c. destruct (Z.to_nat defaultLimit) eqn:E; [lia|]. simpl.
    by rewrite firstn_nil. }
  unfold query, Query2.query2.
  destruct (store_hasOwnProperty store path) as [e|[h|]]; simpl;
    [by rewrite Hone| |by rewrite Hone].
  destruct (collection_fault eng path); simpl; [by rewrite Hone|].
  destruct (buildQuery store path filter options) as [e|q] eqn:Hq; simpl;
    [by rewrite Hone|].
  apply buildQuery_options_plain in Hq.
  destruct (count_fault eng path q); simpl; [by rewrite Hone|].
  rewrite (page_limit_plain _ Hq), Hlim. cbn [andb num_lt].
  replace (maxLimit <? defaultLimit) with false
    by (symmetry; apply Z.ltb_ge; lia).
  unfold ok.
  destruct (skip_value options _ _) as [e|start]; simpl; [by rewrite Hone|].
  destruct (_ || _); simpl; [by rewrite firstn_nil|].
  destruct (timestamp_option options) as [e|ts]; simpl; [by rewrite Hone|].
  destruct (cursor_skip _ _ _) as [e|skipped]; simpl; [by rewrite Hone|].
  replace (0 <? defaultLimit) with true by (symmetry; apply Z.ltb_lt; lia).
  simpl. by rewrite firstn_map.
Qed.

End Capped.

Section Requests.
Context {rt : Runtime}.

Lemma substr1_option key k :
  Server.is_option key = true ->
  (Server.substr1 key = k <-> key = String "~"%char k).
Proof.
  destruct key as [|a key]; simpl; [done|]. intros Ha.
  apply Ascii.eqb_eq in Ha. subst a. split; [by intros ->|by intros [= ->]].
Qed.

Lemma analyze_options query k ks : forall acc,
  k <> "__proto__" ->
  lookup_prop k (snd (fold_left (Server.analyze_key query) ks acc))
  = if existsb (String.eqb (String "~"%char k)) ks
    then Some (prop query (String "~"%char k)) else lookup_prop k (snd acc).
Proof.
  induction ks as [|key ks IH]; intros acc Hk; [done|].
  cbn [fold_left existsb]. rewrite IH by done.
  destruct (existsb _ ks); [by rewrite orb_true_r|].
  rewrite orb_false_r. unfold Server.analyze_key.
  destruct (String.eqb_spec (String "~"%char k) key) as [<-|Hne].
  - cbn. by apply lookup_put_eq.
  - destruct (Server.is_option key) eqn:Eo; [|done].
    cbn [snd]. apply lookup_put_ne. intros Heq.
    symmetry in Heq. apply (substr1_option key k Eo) in Heq. congruence.
Qed.

Lemma analyze_filter query k ks : forall acc,
  k <> "__proto__" ->
  lookup_prop k (fst (fold_left (Server.analyze_key query) ks acc))
  = if negb (Server.is_option k) && existsb (String.eqb k) ks
    then Some (prop query k) else lookup_prop k (fst acc).
Proof.
  induction ks as [|key ks IH]; intros acc Hk; simpl.
  { by rewrite andb_false_r. }
  rewrite IH by done. destruct (Server.is_option k) eqn:Ek; simpl.
  - unfold Server.analyze_key. destruct (Server.is_option key) eqn:Eo; [done|].
    simpl. apply lookup_put_ne. intros ->. congruence.
  - destruct (existsb _ ks); simpl; [by rewrite orb_true_r|].
    rewrite orb_false_r. unfold Server.analyze_key.
    destruct (String.eqb_spec k key) as [<-|Hne]; simpl.
    + rewrite Ek. simpl. by apply lookup_put_eq.
    + destruct (Server.is_option key); simpl; [done|].
      by apply lookup_put_ne.
Qed.

(** Neither map gets a property named [__proto__]. *)
Lemma analyze_proto query ks : forall acc,
  lookup_prop "__proto__" (fst acc) = None ->
  lookup_prop "__proto__" (snd acc) = None ->
  lookup_prop "__proto__" (fst (fold_left (Server.analyze_key query) ks acc))
  = None
  /\ lookup_prop "__proto__"
       (snd (fold_left (Server.analyze_key query) ks acc)) = None.
Proof.
  induction ks as [|key ks IH]; intros acc Hf Ho; [done|].
  cbn [fold_left]. apply IH; unfold Server.analyze_key;
    destruct (Server.is_option key); cbn [fst snd]; try done;
    by apply lookup_put_proto.
Qed.

Lemma analyze_options_lookup query k :
  lookup_prop k (snd (Server.analyzeQueryParameters query))
  = if String.eqb k "__proto__" then None else lookup_prop ("~" +:+ k) query.
Proof.
  destruct (String.eqb_spec k "__proto__") as [->|Hk].
  { by apply (analyze_proto query (map fst query) ([], [])). }
  change ("~" +:+ k) with (String "~"%char k).
  unfold Server.analyzeQueryParameters. rewrite analyze_options by done.
  rewrite (lookup_prop_keys (String "~"%char k) query).
  by destruct (existsb _ _).
Qed.

Lemma analyze_filter_lookup query k :
  lookup_prop k (fst (Server.analyzeQueryParameters query))
  = if Server.is_option k || String.eqb k "__proto__" then None
    else lookup_prop k query.
Proof.
  destruct (String.eqb_spec k "__proto__") as [->|Hk].
  { rewrite orb_true_r.
    by apply (analyze_proto query (map fst query) ([], [])). }
  rewrite orb_false_r.
  unfold Server.analyzeQueryParameters. rewrite analyze_filter by done.
  rewrite (lookup_prop_keys k query).
  destruct (Server.is_option k); simpl; [done|]. by destruct (existsb _ _).
Qed.

(** X22. The parameters of a request are split by their first character: a
    parameter [~k] becomes the option [k] with the same value, every other
    parameter becomes the filter entry of the same name, and neither map
    gets anything else; the name [__proto__] is the exception, which the
    assignment leaves out of both maps. *)
Theorem analyzeQueryParameters_splits query k :
  lookup_prop k (snd (Server.analyzeQueryParameters query))
  = (if String.eqb k "__proto__" then None
     else lookup_prop ("~" +:+ k) query)
  /\ lookup_prop k (fst (Server.analyzeQueryParameters query))
     = (if Server.is_option k || String.eqb k "__proto__" then None
        else lookup_prop k query).
Proof. split; [apply analyze_options_lookup | apply analyze_filter_lookup]. Qed.

Lemma assign_lookup (a b : obj) k :
  NoDup (map fst a) -> NoDup (map fst b) ->
  lookup_prop k (assign a b)
  = match lookup_prop k b with Some v => Some v | None => lookup_prop k a end.
Proof.
  intros Ha Hb. unfold assign.
  change (fun acc kv => set_prop (fst kv) (snd kv) acc) with assign_step.
  rewrite fold_left_app.
  rewrite (fold_assign_lookup k b _ Hb), (fold_assign_lookup k a _ Ha).
  simpl. by destruct (lookup_prop k a).
Qed.

(** X23. [Object.assign] as [buildQueryString] uses it, on objects: a key
    of the override wins over the same key of the request, every other key
    of the request keeps its value, and no key occurs twice in the result. *)
Theorem assign_last_write_wins (a b : obj) k :
  NoDup (map fst a) -> NoDup (map fst b) ->
  lookup_prop k (assign a b)
  = match lookup_prop k b with Some v => Some v | None => lookup_prop k a end
  /\ NoDup (map fst (assign a b)).
Proof.
  intros Ha Hb. split; [by apply assign_lookup | apply assign_NoDup].
Qed.

Lemma lookup_prop_absent_key k (o : obj) (P : string -> Prop) :
  Forall P (map fst o) -> ~ P k -> lookup_prop k o = None.
Proof.
  intros Hall Hk. destruct (lookup_prop k o) as [v|] eqn:Hl; [|done].
  apply lookup_prop_In in Hl. rewrite List.Forall_forall in Hall.
  by apply Hall in Hl.
Qed.

(** X24. A link leads back to the request it was built from, moved: for an
    override made of options, as the links have them ([~position], and
    [~limit] in the clamped prev link), the parameters behind the href,
    split again, give the options of the override with their new values,
    every other option of the request as it was, and the filter of the
    request. *)
Theorem link_parameters_read_back (query config : obj) k :
  NoDup (map fst query) ->
  NoDup (map fst config) ->
  Forall (fun key => Server.is_option key = true /\ key <> "~__proto__")
    (map fst config) ->
  let linked := assign query config in
  lookup_prop k (snd (Server.analyzeQueryParameters linked))
  = match lookup_prop ("~" +:+ k) config with
    | Some v => Some v
    | None => lookup_prop k (snd (Server.analyzeQueryParameters query))
    end
  /\ lookup_prop k (fst (Server.analyzeQueryParameters linked))
     = lookup_prop k (fst (Server.analyzeQueryParameters query)).
Proof.
  intros Hq Hc Hoptions linked. split.
  - rewrite !analyze_options_lookup. unfold linked.
    destruct (String.eqb_spec k "__proto__") as [->|Hk].
    + rewrite (lookup_prop_absent_key _ _ _ Hoptions); [done|].
      intros [_ Hne]. by apply Hne.
    + by rewrite assign_lookup.
  - rewrite !analyze_filter_lookup.
    destruct (Server.is_option k || String.eqb k "__proto__") eqn:Ek; [done|].
    unfold linked. rewrite assign_lookup by done.
    rewrite (lookup_prop_absent_key _ _ _ Hoptions); [done|].
    intros [Ho _]. apply orb_false_iff in Ek as [Ek _]. congruence.
Qed.

Section Pipe.
Variable stringify : jsval -> string.

Lemma pipe_rest result host query chunks :
  Server.pipe stringify result host query false chunks
  = flat_map (fun chunk => [","; stringify chunk]) chunks ++ ["]"; "}"].
Proof.
  induction chunks as [|chunk chunks IH]; simpl; [done|]. by rewrite IH.
Qed.

Lemma intersperse_cons sep x xs :
  intersperse sep (x :: xs) = x :: flat_map (fun y => [sep; y]) xs.
Proof.
  revert x. induction xs as [|y xs IH]; intros x; [done|].
  change (intersperse sep (x :: y :: xs)) with (x :: sep :: intersperse sep (y :: xs)).
  by rewrite IH.
Qed.

(** X25. The body of a 200 answer is framed once: the envelope start is
    pushed exactly once and first, also when there is no value, then the
    values as JSON with a comma between any two of them, then the closing
    bracket and brace. *)
Theorem pipe_frames_values result host query chunks :
  Server.pipe stringify result host query true chunks
  = pushQueryStreamStart result host query
    ++ intersperse "," (map stringify chunks)
    ++ ["]"; "}"].
Proof.
  destruct chunks as [|chunk chunks]; [done|].
  change (Server.pipe stringify result host query true (chunk :: chunks))
    with ((pushQueryStreamStart result host query ++ [stringify chunk])
          ++ Server.pipe stringify result host query false chunks).
  change (map stringify (chunk :: chunks))
    with (stringify chunk :: map stringify chunks).
  rewrite pipe_rest, intersperse_cons.
  generalize (pushQueryStreamStart result host query) as start. intros start.
  rewrite <- app_assoc. f_equal. simpl. do 2 f_equal.
  induction chunks as [|c chunks IH]; simpl; [done|]. by rewrite IH.
Qed.

End Pipe.
End Requests.

Section Routing.

Lemma lacks_append c s t :
  lacks c (s +:+ t) = lacks c s && lacks c t.
Proof.
  induction s as [|a s IH]; [done|]. rewrite append_cons. simpl.
  rewrite IH. by rewrite andb_assoc.
Qed.

Lemma split_on_whole c s :
  lacks c s = true -> Server.split_on c s = [s].
Proof.
  induction s as [|a s IH]; simpl; [done|].
  destruct (Ascii.eqb a c); simpl; [done|]. intros Hs. by rewrite IH.
Qed.

Lemma split_on_first c s t :
  lacks c s = true ->
  Server.split_on c (s +:+ String c t) = s :: Server.split_on c t.
Proof.
  induction s as [|a s IH].
  - intros _. change (EmptyString +:+ String c t) with (String c t).
    simpl. by rewrite Ascii.eqb_refl.
  - rewrite append_cons. simpl.
    destruct (Ascii.eqb a c); simpl; [done|]. intros Hs. by rewrite IH.
Qed.

Lemma split_on_nonempty c s : Server.split_on c s <> [].
Proof.
  destruct s as [|a s]; simpl; [done|].
  destruct (Ascii.eqb a c); [done|]. by destruct (Server.split_on c s).
Qed.

Lemma split_on_concat c s :
  String.concat (String c EmptyString) (Server.split_on c s) = s.
Proof.
  induction s as [|a s IH]; [done|]. cbn [Server.split_on].
  pose proof (split_on_nonempty c s) as Hne.
  destruct (Server.split_on c s) as [|x l]; [done|].
  destruct (Ascii.eqb_spec a c) as [->|Hac].
  - change (String.concat (String c EmptyString) (EmptyString :: x :: l))
      with (String c (String.concat (String c EmptyString) (x :: l))).
    by rewrite IH.
  - destruct l as [|y l]; [by subst|].
    change (String.concat (String c EmptyString) (String a x :: y :: l))
      with (String a (String.concat (String c EmptyString) (x :: y :: l))).
    by rewrite IH.
Qed.

Lemma strip_trailing_slash_of s :
  Server.strip_trailing_slash (s +:+ "/") = s.
Proof.
  induction s as [|a s IH]; [done|]. rewrite append_cons.
  destruct (s +:+ "/") as [|b t] eqn:E.
  { by destruct s. }
  change (Server.strip_trailing_slash (String a (String b t)))
    with (String a (Server.strip_trailing_slash (String b t))).
  by rewrite IH.
Qed.

Lemma strip_trailing_slash_open s :
  open_ended s = true -> Server.strip_trailing_slash s = s.
Proof.
  induction s as [|a s IH]; [done|]. destruct s as [|b s].
  - simpl. by destruct (Ascii.eqb a "/").
  - intros Hs.
    change (Server.strip_trailing_slash (String a (String b s)))
      with (String a (Server.strip_trailing_slash (String b s))).
    by rewrite IH.
Qed.

Lemma open_ended_append s t :
  t <> EmptyString -> open_ended t = true -> open_ended (s +:+ t) = true.
Proof.
  intros Ht Hopen. induction s as [|a s IH]; [done|].
  rewrite append_cons. destruct (s +:+ t) eqn:E; [|done].
  destruct s; [by subst|done].
Qed.

(** [analyzeUrl] on a URL whose text after the path is [tail]: nothing, or
    a query string. *)
Lemma analyzeUrl_of_path action path (slash : bool) tail :
  lacks "/" action = true ->
  lacks "?" action = true ->
  lacks "?" path = true ->
  open_ended path = true ->
  tail = EmptyString \/ (exists qs, tail = String "?" qs) ->
  Server.analyzeUrl
    ("/" +:+ action +:+ "/" +:+ path +:+ (if slash then "/" else EmptyString)
     +:+ tail)
  = Server.Route action path.
Proof.
  intros Ha Hq Hp Hopen Htail. unfold Server.analyzeUrl.
  set (inner := action +:+ "/" +:+ path
                +:+ (if slash then "/" else EmptyString)).
  assert ("/" +:+ action +:+ "/" +:+ path
          +:+ (if slash then "/" else EmptyString) +:+ tail
          = String "/" inner +:+ tail) as ->.
  { change (String "/" inner +:+ tail) with ("/" +:+ inner +:+ tail).
    unfold inner. by rewrite !append_assoc. }
  assert (lacks "?" (String "/" inner) = true) as Hl.
  { unfold inner. simpl. rewrite !lacks_append, Hq, Hp. by destruct slash. }
  assert (nth 0 (Server.split_on "?" (String "/" inner +:+ tail)) EmptyString
          = String "/" inner) as ->.
  { destruct Htail as [->|[qs ->]].
    - by rewrite append_empty, split_on_whole.
    - by rewrite split_on_first. }
  change (Server.strip_leading_slash (String "/" inner)) with inner.
  assert (Server.strip_trailing_slash inner
          = if (String.eqb path EmptyString) && negb slash
            then action else action +:+ "/" +:+ path) as ->.
  { unfold inner. destruct slash.
    - rewrite andb_false_r, <- !append_assoc, strip_trailing_slash_of.
      by rewrite append_assoc.
    - rewrite andb_true_r, append_empty.
      destruct (String.eqb_spec path EmptyString) as [->|Hne].
      + apply strip_trailing_slash_of.
      + apply strip_trailing_slash_open.
        change (action +:+ "/" +:+ path) with (action +:+ String "/" path).
        apply open_ended_append; [done|]. by destruct path. }
  destruct (String.eqb_spec path EmptyString) as [->|Hne].
  - destruct slash; simpl.
    + change (action +:+ "/" +:+ EmptyString)
        with (action +:+ String "/" EmptyString).
      by rewrite split_on_first.
    + by rewrite split_on_whole.
  - change (action +:+ "/" +:+ path) with (action +:+ String "/" path).
    simpl. rewrite split_on_first by done. simpl.
    by rewrite drop_0, (split_on_concat "/" path).
Qed.

(** X26. [analyzeUrl] reads a request URL back into its parts: for an
    action without slash and question mark and a path without question mark
    that does not end in a slash, the URL made of a slash, the action, a
    slash and the path, with or without a closing slash and with or without
    a query string, gives that action and that path. *)
Theorem analyzeUrl_reads_action_and_path action path (slash : bool) query :
  lacks "/" action = true ->
  lacks "?" action = true ->
  lacks "?" path = true ->
  open_ended path = true ->
  Server.analyzeUrl
    ("/" +:+ action +:+ "/" +:+ path +:+ (if slash then "/" else EmptyString)
     +:+ match query with Some qs => "?" +:+ qs | None => EmptyString end)
  = Server.Route action path.
Proof.
  intros Ha Hq Hp Hopen. apply analyzeUrl_of_path; try done.
  destruct query as [qs|]; [right; by exists qs | by left].
Qed.

(** X27. The links of an answer do not lead back to the query: the service
    URL is the origin and the path of the request without its action, so the
    request for the href of a link (the slash and query string that
    [pushQueryStreamStart] appends included) is analysed into the first
    segment of the collection path as its action and the rest as its
    path (a collection path of at least two segments is taken). *)
Theorem link_href_loses_the_action
    protocol hostname action segment rest query qs :
  lacks "/" action = true ->
  lacks "?" action = true ->
  lacks "/" segment = true ->
  lacks "?" segment = true ->
  lacks "?" rest = true ->
  open_ended rest = true ->
  rest <> EmptyString ->
  let path := segment +:+ "/" +:+ rest in
  let request :=
    "/" +:+ action +:+ "/" +:+ path
    +:+ match query with Some q => "?" +:+ q | None => EmptyString end in
  Server.serviceUrl protocol hostname request
  = protocol +:+ "://" +:+ hostname +:+ "/" +:+ path
  /\ Server.analyzeUrl ("/" +:+ path +:+ "/" +:+ "?" +:+ qs)
     = Server.Route segment rest.
Proof.
  intros Ha Hq Hs Hsq Hr Hopen Hrest path request. split.
  - unfold Server.serviceUrl.
    assert (Server.analyzeUrl request = Server.Route action path) as ->; [|done].
    apply (analyzeUrl_of_path action path false
             match query with Some q => "?" +:+ q | None => EmptyString end);
      try done.
    + unfold path. by rewrite !lacks_append, Hsq, Hr.
    + unfold path. change (segment +:+ "/" +:+ rest)
        with (segment +:+ String "/" rest).
      apply open_ended_append; [done|]. by destruct rest.
    + destruct query as [q|]; [right; by exists q | by left].
  - unfold path. rewrite append_assoc.
    apply (analyzeUrl_of_path segment rest true ("?" +:+ qs)); try done.
    right. by exists qs.
Qed.

End Routing.

(** * The further properties at the handlers of the examples *)

Lemma handle_registers_checked_rules_witness :
  exists h,
    logs_store !! "v1/logs" = Some h
    /\ indexes h = logs_indexes
    /\ transform h = VUndefined
    /\ (forall key, In key (keys h) ->
          exists item, get (indexes h) key = ok item /\ rule_accepted item).
Proof.
  destruct (handle_registers_checked_rules ∅ [VStr "v1/logs"; logs_indexes]
              logs_store) as (h & H1 & _ & H2 & H3 & _ & H5 & _).
  - vm_compute. reflexivity.
  - exists h. split; [apply H1; vm_compute; discriminate|].
    repeat split; assumption.
Defined.

Lemma handle_refuses_non_object_indexes_witness :
  handle ∅ [VStr "v1/logs"; VStr "type"]
  = throw (Error "Command handler index must be an object").
Proof.
  apply (handle_refuses_non_object_indexes ∅ [VStr "v1/logs"; VStr "type"]);
    discriminate.
Defined.

Lemma handle_leaves_other_paths_witness :
  add (healthy_engine []) logs_store 1000 "v1/audit" (VObj [])
  = add (healthy_engine []) ∅ 1000 "v1/audit" (VObj []).
Proof.
  destruct (handle_leaves_other_paths ∅ [VStr "v1/logs"; logs_indexes]
              logs_store) as [Hother _].
  - vm_compute. reflexivity.
  - destruct (Hother ltac:(vm_compute; discriminate) "v1/audit"
                ltac:(vm_compute; discriminate)) as [Hadd _].
    apply Hadd.
Defined.

Lemma add_answers_witness :
  exists item,
    snd (add (healthy_engine []) logs_store 1000 "v1/logs"
           (VObj [("type", VStr "info")]))
    = [UseCollection "v1/logs"; InsertOne "v1/logs" item].
Proof.
  destruct (add_answers logs_store (healthy_engine []) 1000 "v1/logs"
              (VObj [("type", VStr "info")])) as (_ & _ & _ & _ & _ & H).
  apply H. vm_compute. reflexivity.
Defined.

Lemma add_inserts_only_validated_witness :
  "v1/logs" = "v1/logs"
  /\ exists h data' item0,
       logs_store !! "v1/logs" = Some h
       /\ (if truthy (transform h)
           then apply (transform h) (VObj [("type", VStr "info")])
           else ok (VObj [("type", VStr "info")])) = ok data'
       /\ Forall (fun k => exists v, index_value (indexes h) data' k = ok v)
            (keys h)
       /\ index_all (indexes h) data' (keys h) [] = ok item0
       /\ logged "info" 1000
          = set_prop "__data" data'
              (set_prop "__timestamp" (VNum (Int 1000)) item0).
Proof.
  apply (add_inserts_only_validated (healthy_engine []) logs_store 1000
           "v1/logs" (VObj [("type", VStr "info")]) "v1/logs"
           (logged "info" 1000)).
  vm_compute. right. left. reflexivity.
Defined.

Lemma index_value_optional_typed_field_missing_witness :
  index_value sample_indexes (VObj []) "count"
  = throw (RequestError "Invalid type for property: count. Expected number").
Proof.
  apply (index_value_optional_typed_field_missing sample_indexes (VObj [])
           "count" [("type", VStr "number")] "number");
    solve [reflexivity | discriminate].
Defined.

Lemma index_value_failures_witness :
  let e := RequestError "Validation failed for property: type." in
  let rule := [("required", VBool true); ("type", VStr "string");
               ("validator", VFun 0)] in
  (lookup_prop "hasOwnProperty" [("type", VStr "debug")] <> None
   /\ e = not_a_function)
  \/ e = RequestError ("Missing required property: " +:+ "type" +:+ ".")
  \/ e = RequestError ("Invalid type for property: " +:+ "type" +:+ ". Expected "
                       +:+ to_string (prop rule "type"))
  \/ e = RequestError ("Validation failed for property: " +:+ "type" +:+ ".")
  \/ (exists value, apply (prop rule "validator") value = throw e)
  \/ (exists value, apply (prop rule "value") value = throw e).
Proof.
  intros e rule.
  apply (index_value_failures logs_indexes rule [("type", VStr "debug")] "type" e);
    reflexivity.
Defined.

Lemma index_value_default_as_supplied_witness :
  index_value sample_indexes (VObj []) "note"
  = index_value sample_indexes (VObj [("note", VStr "none")]) "note".
Proof.
  apply (index_value_default_as_supplied sample_indexes [] "note"
           [("defaultValue", VStr "none")]); solve [reflexivity | discriminate].
Defined.


Lemma buildQuery_ignores_undeclared_keys_witness :
  "type" = "__timestamp"
  \/ (In "type" (map fst [("type", VStr "info"); ("colour", VStr "red")])
      /\ exists h, logs_store !! "v1/logs" = Some h
                   /\ hasOwnProperty (indexes h) "type" = ok true).
Proof.
  apply (buildQuery_ignores_undeclared_keys logs_store "v1/logs"
           [("type", VStr "info"); ("colour", VStr "red")] []
           [("type", VStr "info")] "type").
  - vm_compute. reflexivity.
  - discriminate.
Defined.




Lemma buildQuery_start_time_witness :
  exists q,
    buildQuery logs_store "v1/logs" [] [("startTime", VStr "1000")] = ok q
    /\ lookup_prop "__timestamp" q = Some (VObj [("$gte", VNum (Int 1000))]).
Proof.
  exists [("__timestamp", VObj [("$gte", VNum (Int 1000))])].
  split; [vm_compute; reflexivity|].
  destruct (buildQuery_start_time logs_store "v1/logs" []
              [("startTime", VStr "1000")]
              [("__timestamp", VObj [("$gte", VNum (Int 1000))])])
    as [Hstart _].
  - vm_compute. reflexivity.
  - reflexivity.
  - destruct Hstart as (t & Ht & Hnum & _); [reflexivity|].
    rewrite Ht. by rewrite (Hnum eq_refl).
Defined.

Lemma query_default_window_of_small_collection_witness :
  query 10 (healthy_engine three_logs) logs_store "v1/logs" [] []
  = QueryResult (Response 200 "application/json" []) 10 (Some (Int (-7))) 3.
Proof.
  apply (query_default_window_of_small_collection 10 (healthy_engine three_logs)
           logs_store "v1/logs" [] []
           (Handler logs_indexes ["type"] VUndefined) []);
    solve [vm_compute; reflexivity | vm_compute; discriminate
          | vm_compute; split; congruence].
Defined.

Lemma query_default_window_witness :
  query 2 (healthy_engine three_logs) logs_store "v1/logs" [] []
  = QueryResult (Response 200 "application/json" (map bare three_logs))
      2 (Some (Int 1)) 3.
Proof.
  apply (query_default_window 2 (healthy_engine three_logs)
           logs_store "v1/logs" [] []
           (Handler logs_indexes ["type"] VUndefined) []);
    solve [vm_compute; reflexivity | vm_compute; discriminate
          | vm_compute; split; congruence].
Defined.


Lemma query_answers_witness :
  code (reply (query 10 (healthy_engine []) logs_store "v1/metrics" [] [])) <> 200.
Proof.
  destruct (query_answers 10 (healthy_engine []) logs_store "v1/metrics" [] [])
    as (_ & _ & _ & _ & H).
  apply H. reflexivity.
Defined.

Lemma query2_caps_the_limit_witness :
  Query2.limit
    (Query2.query2 10 100 no_other_limit (healthy_engine three_logs) logs_store
       "v1/logs" [] [("limit", VStr "500"); ("position", VStr "1")])
  = Int 100.
Proof.
  destruct (query2_caps_the_limit 10 100 no_other_limit
              (healthy_engine three_logs) logs_store "v1/logs" []
              [("limit", VStr "500"); ("position", VStr "1")])
    as (_ & _ & Hopt & _).
  - vm_compute. reflexivity.
  - apply (Hopt 500); reflexivity.
Defined.

Lemma query2_default_window_witness :
  Query2.query2 2 100 no_other_limit (healthy_engine three_logs) logs_store
    "v1/logs" [] []
  = Query2.Result
      (Response 200 "application/json"
         [bare (logged "info" 1000); bare (logged "warn" 2000)])
      (Int 2) (Some (Int 1)) 3.
Proof.
  apply (query2_default_window 2 100 no_other_limit (healthy_engine three_logs)
           logs_store "v1/logs" [] []
           (Handler logs_indexes ["type"] VUndefined) [] 2);
    solve [vm_compute; reflexivity | vm_compute; discriminate
          | vm_compute; split; congruence].
Defined.

Lemma query2_cuts_query_witness :
  content
    (Query2.reply
       (Query2.query2 2 100 no_other_limit (healthy_engine three_logs)
          logs_store "v1/logs" [] []))
  = firstn (Z.to_nat 2)
      (content (reply (query 2 (healthy_engine three_logs) logs_store
                         "v1/logs" [] []))).
Proof.
  apply (query2_cuts_query 2 100 no_other_limit (healthy_engine three_logs)
           logs_store "v1/logs" [] []); [reflexivity | lia].
Defined.

Lemma assign_last_write_wins_witness :
  lookup_prop "~position"
    (assign [("type", VStr "info"); ("~position", VStr "3")]
       [("~position", VNum (Int 13))])
  = Some (VNum (Int 13)).
Proof.
  apply (assign_last_write_wins
           [("type", VStr "info"); ("~position", VStr "3")]
           [("~position", VNum (Int 13))] "~position");
    apply (bool_decide_unpack _); vm_compute; exact I.
Defined.

Lemma link_parameters_read_back_witness :
  let query :=
    [("type", VStr "info"); ("~position", VStr "3"); ("~limit", VStr "5")] in
  let prev := [("~position", VNum (Int 1)); ("~limit", VNum (Int 2))] in
  lookup_prop "limit" (snd (Server.analyzeQueryParameters (assign query prev)))
  = Some (VNum (Int 2))
  /\ lookup_prop "type" (fst (Server.analyzeQueryParameters (assign query prev)))
     = lookup_prop "type" (fst (Server.analyzeQueryParameters query)).
Proof.
  intros query prev.
  assert (NoDup (map fst query)) as Hq
    by (apply (bool_decide_unpack _); vm_compute; exact I).
  assert (NoDup (map fst prev)) as Hp
    by (apply (bool_decide_unpack _); vm_compute; exact I).
  assert (Forall (fun key => Server.is_option key = true /\ key <> "~__proto__")
            (map fst prev)) as Ho
    by (repeat constructor; discriminate).
  split.
  - exact (proj1 (link_parameters_read_back query prev "limit" Hq Hp Ho)).
  - exact (proj2 (link_parameters_read_back query prev "type" Hq Hp Ho)).
Defined.

Lemma analyzeUrl_reads_action_and_path_witness :
  Server.analyzeUrl "/query/v1/logs?type=info" = Server.Route "query" "v1/logs".
Proof.
  apply (analyzeUrl_reads_action_and_path "query" "v1/logs" false
           (Some "type=info")); reflexivity.
Defined.

Lemma link_href_loses_the_action_witness :
  Server.serviceUrl "http" "localhost:3000" "/query/v1/logs"
  = "http://localhost:3000/v1/logs"
  /\ Server.analyzeUrl "/v1/logs/?~position=5" = Server.Route "v1" "logs".
Proof.
  apply (link_href_loses_the_action "http" "localhost:3000" "query" "v1" "logs"
           None "~position=5"); solve [reflexivity | discriminate].
Defined.
